(** * go-bexpr: schema derivation and expression evaluation

    A shallow embedding of [bexpr/evaluate.go] (the evaluator) and of the
    field-configuration file (the schema deriver), with the properties the
    specification states about them.

    Conventions of the embedding.

    - A Go function returning [(bool, error)] returns a pair
      [bool * option error] here; [None] is the nil error.  A Go panic
      (nil dereference, failed type assertion, misuse of [reflect]) is the
      outcome [Panic]; every function that can panic returns in [Go].
    - [reflect.Type] and [reflect.Value] are finite trees ([GoType],
      [GoValue] below).  The types are the predeclared types, the type
      literals built from them, and the types whose method set implements
      [ExpressionEvaluator]: such a type or value is marked by a wrapper
      ([TEvaluator], [VEvaluator]) around its representation, around a
      pointer when the methods have pointer receivers.  Two types are
      identical when their trees are equal.  Defined types without those
      methods, cyclic types and values, embedded (promoted) struct
      fields, interface types other than the empty interface as the type
      of map keys, and maps with keys that are not primitives are
      outside the model.
    - The datum handed to the evaluator is given reflected, as
      [reflect.ValueOf(datum)]; the argument of the deriver is given by
      its dynamic type.
    - [fmt.Errorf] messages are constructors of [error] that keep the
      formatted arguments.
    - A Go map used as a dictionary of configurations is a [gmap]; the nil
      map is [None]. *)

From Stdlib Require Import ZArith String List Bool Ascii Lia PrimFloat.
From stdpp Require Import base option gmap strings.

#[local] Set Warnings "-register-all".
#[local] Open Scope string_scope.
#[local] Open Scope list_scope.

(** ** Outcomes of Go code *)

Inductive Go (A : Type) : Type :=
| Return (a : A)
| Panic.
Arguments Return {A} a.
Arguments Panic {A}.

(** Sequencing: a panic of the first computation is the outcome. *)
Definition bind {A B : Type} (m : Go A) (k : A -> Go B) : Go B :=
  match m with
  | Return a => k a
  | Panic => Panic
  end.

Notation "'let*' p ':=' m 'in' k" :=
  (bind m (fun x => match x with p => k end))
  (at level 10, p pattern, m at level 100, k at level 200, only parsing).

(** ** Package [reflect]: kinds and struct fields *)

Module reflect.

Inductive Kind : Set :=
| Invalid | Bool
| Int | Int8 | Int16 | Int32 | Int64
| Uint | Uint8 | Uint16 | Uint32 | Uint64 | Uintptr
| Float32 | Float64 | Complex64 | Complex128
| Array | Chan | Func | Interface | Map | Ptr | Slice | String | Struct
| UnsafePointer.

#[global] Instance Kind_eq_dec : EqDecision Kind.
Proof. solve_decision. Defined.

(** A struct field as [reflect.StructField] describes it.  [Content] is
    the field's type in a struct type and the field's value in a struct
    value.  [Tag] is what [field.Tag.Get("bexpr")] returns. *)
Record StructField (A : Type) : Type := {
  Name : string;
  PkgPath : string;
  Tag : string;
  Content : A
}.
Arguments Name {A} _.
Arguments PkgPath {A} _.
Arguments Tag {A} _.
Arguments Content {A} _.

End reflect.

(** ** Match operators

    Modelled from the spec: the declarations of the operators and of the
    AST are in a file that is not among the sources.  Section 3.5 gives
    the six match operators, section 3.4 the connectives.  The operators
    are Go [int] enumerations (they are printed with [%d] and switched
    over with a default case), so each type has a constructor for the
    values outside the named constants. *)

Inductive MatchOperator : Set :=
| MatchEqual | MatchNotEqual
| MatchIn | MatchNotIn
| MatchIsEmpty | MatchIsNotEmpty
| MatchOperatorOther (n : Z).

Inductive UnaryOperator : Set :=
| UnaryOpNot
| UnaryOperatorOther (n : Z).

Inductive BinaryOperator : Set :=
| BinaryOpAnd
| BinaryOpOr
| BinaryOperatorOther (n : Z).

(** ** Field configurations *)

(** The coercion functions, by name: their bodies are not needed here.
    [CoerceCustom] stands for functions supplied by an
    [ExpressionEvaluator]. *)
Inductive FieldValueCoercionFn : Set :=
| CoerceBool
| CoerceInt | CoerceInt8 | CoerceInt16 | CoerceInt32 | CoerceInt64
| CoerceUint | CoerceUint8 | CoerceUint16 | CoerceUint32 | CoerceUint64
| CoerceFloat32 | CoerceFloat64
| CoerceString
| CoerceCustom (id : nat).

Definition FieldName := string.
Definition FieldNameAny : FieldName := "".

(** [*FieldConfiguration]; map entries hold non-nil pointers, a lookup
    that misses yields the nil pointer ([None]). *)
Inductive FieldConfiguration : Type := mkFieldConfiguration {
  StructFieldName : string;
  SubFields : option (gmap string FieldConfiguration);
  CoerceFn : option FieldValueCoercionFn;
  SupportedOperations : list MatchOperator
}.

(** [FieldConfigurations]: [None] is the nil map. *)
Abbreviation FieldConfigurations := (option (gmap string FieldConfiguration)).

(** [fields[name]] *)
Definition index (fields : FieldConfigurations) (name : FieldName)
  : option FieldConfiguration :=
  match fields with
  | None => None
  | Some m => m !! name
  end.

(** [len(fields)] *)
Definition len (fields : FieldConfigurations) : nat :=
  match fields with
  | None => 0
  | Some m => size m
  end.

(** ** Errors *)

Inductive error : Type :=
| ErrInContains (kind : reflect.Kind) (selector : list string)
    (* "Cannot perform in/contains operations on type %s for selector: %q" *)
| ErrInvalidMatchOperation (op : MatchOperator)
    (* "Invalid match operation: %d" *)
| ErrNestedSelection (selector : list string) (kind : reflect.Kind)
    (* "Value at selector %q with type %s does not support nested field selection" *)
| ErrInvalidASTNode
    (* "Invalid AST node" *)
| ErrMapKeysNotStrings
    (* "Cannot generate FieldConfigurations for maps with keys that are not strings" *)
| ErrInvalidTopLevelType
    (* "Invalid top level type - can only use structs, map[string]* or an ExpressionEvaluator" *)
| ErrCustom (msg : string).
    (* an error made by an ExpressionEvaluator implementation *)

Abbreviation result := (Go (bool * option error)).

(** [err != nil] *)
Definition notNil (err : option error) : bool :=
  match err with
  | Some _ => true
  | None => false
  end.

(** ** Types ([reflect.Type]) *)

Inductive GoType : Type :=
| TBasic (k : reflect.Kind)
    (* a type without components of interest: the predeclared type of a
       primitive kind (bool, int, ..., string), the empty interface for
       the kind Interface, and a type of another kind the deriver does
       not support (chan, func, complex, uintptr, unsafe pointer) *)
| TPtr (elem : GoType)
| TMap (key elem : GoType)
| TSlice (elem : GoType)
| TArray (n : nat) (elem : GoType)
| TStruct (fields : list (reflect.StructField GoType))
| TEvaluator (configs : FieldConfigurations) (underlying : GoType).
    (* a type whose method set has the methods of ExpressionEvaluator;
       [configs] is what its FieldConfigurations() returns *)

(** [rtype.Kind()] *)
Fixpoint TypeKind (rtype : GoType) : reflect.Kind :=
  match rtype with
  | TBasic k => k
  | TPtr _ => reflect.Ptr
  | TMap _ _ => reflect.Map
  | TSlice _ => reflect.Slice
  | TArray _ _ => reflect.Array
  | TStruct _ => reflect.Struct
  | TEvaluator _ underlying => TypeKind underlying
  end.

(** The representation of a type, without its methods. *)
Fixpoint underlyingType (rtype : GoType) : GoType :=
  match rtype with
  | TEvaluator _ underlying => underlyingType underlying
  | _ => rtype
  end.

(** [rtype.Implements(...)] for the interface type ExpressionEvaluator:
    the configurations the type declares when it implements the
    interface.  The method set of a pointer type includes that of its
    element type. *)
Definition Implements (rtype : GoType) : option FieldConfigurations :=
  match rtype with
  | TEvaluator configs _ => Some configs
  | TPtr (TEvaluator configs _) => Some configs
  | _ => None
  end.

(** ** Dynamic values ([interface{}]) and reflected values *)

(** The values of the fourteen primitive types.  Integers are kept as
    [Z]; a float32 is kept as the binary64 float of the same value, on
    which [==] is the same IEEE comparison. *)
Inductive Primitive : Set :=
| bool_ (b : bool)
| int_ (n : Z) | int8_ (n : Z) | int16_ (n : Z) | int32_ (n : Z) | int64_ (n : Z)
| uint_ (n : Z) | uint8_ (n : Z) | uint16_ (n : Z) | uint32_ (n : Z) | uint64_ (n : Z)
| float32_ (x : float) | float64_ (x : float)
| string_ (s : string).

Definition PrimitiveKind (p : Primitive) : reflect.Kind :=
  match p with
  | bool_ _ => reflect.Bool
  | int_ _ => reflect.Int | int8_ _ => reflect.Int8 | int16_ _ => reflect.Int16
  | int32_ _ => reflect.Int32 | int64_ _ => reflect.Int64
  | uint_ _ => reflect.Uint | uint8_ _ => reflect.Uint8 | uint16_ _ => reflect.Uint16
  | uint32_ _ => reflect.Uint32 | uint64_ _ => reflect.Uint64
  | float32_ _ => reflect.Float32 | float64_ _ => reflect.Float64
  | string_ _ => reflect.String
  end.

(** An [interface{}] value: nil, a primitive, or a value of another
    dynamic type, of which only the kind is kept. *)
Inductive interface : Set :=
| Nil
| Box (p : Primitive)
| Opaque (k : reflect.Kind).

(** Modelled from the spec: the interface ExpressionEvaluator of section
    4.4 is declared in a file that is not among the sources.  This is its
    method [EvaluateMatch(selector, operator, value)], called as
    evaluate.go calls it; a value of an implementing type carries the
    method closed over its receiver. *)
Definition EvaluateMatchFn : Type :=
  list string -> MatchOperator -> interface -> result.

(** [reflect.Value].  A pointer carries the type it points to; the nil
    pointer to that type is [VPtr elemType VZero]: its [Elem()] is the
    zero Value. *)
Inductive GoValue : Type :=
| VZero
    (* the zero Value: IsValid() is false, Kind() is Invalid *)
| VBasic (p : Primitive)
| VPtr (elemType : GoType) (elem : GoValue)
| VStruct (fields : list (reflect.StructField GoValue))
| VList (array : bool) (elemType : GoType) (items : list GoValue)
    (* a slice, or an array when [array] is set *)
| VMap (keyType : GoType) (entries : list (Primitive * GoValue))
| VChan (queued : nat)
| VOther (k : reflect.Kind)
| VEvaluator (EvaluateMatch : EvaluateMatchFn) (underlying : GoValue).
    (* a value of a type with the methods of ExpressionEvaluator *)

(** [v.Kind()] *)
Fixpoint ValueKind (v : GoValue) : reflect.Kind :=
  match v with
  | VZero => reflect.Invalid
  | VBasic p => PrimitiveKind p
  | VPtr _ _ => reflect.Ptr
  | VStruct _ => reflect.Struct
  | VList array _ _ => if array then reflect.Array else reflect.Slice
  | VMap _ _ => reflect.Map
  | VChan _ => reflect.Chan
  | VOther k => k
  | VEvaluator _ underlying => ValueKind underlying
  end.

(** The representation of a value, without its methods. *)
Fixpoint underlyingValue (v : GoValue) : GoValue :=
  match v with
  | VEvaluator _ underlying => underlyingValue underlying
  | _ => v
  end.

(** [v.IsValid()] *)
Definition IsValid (v : GoValue) : bool :=
  match v with
  | VZero => false
  | _ => true
  end.

(** [reflect.Indirect(v)]: the pointee of a pointer, [v] otherwise. *)
Fixpoint Indirect (v : GoValue) : GoValue :=
  match v with
  | VPtr _ elem => elem
  | VEvaluator _ underlying =>
      match ValueKind underlying with
      | reflect.Ptr => Indirect underlying
      | _ => v
      end
  | _ => v
  end.

(** [v.Interface()]; panics on the zero Value. *)
Definition Interface (v : GoValue) : Go interface :=
  match v with
  | VZero => Panic
  | VBasic p => Return (Box p)
  | _ => Return (Opaque (ValueKind v))
  end.

(** [v.Interface().(ExpressionEvaluator)] on a valid [v]: the method
    EvaluateMatch of [v] when the type of [v] has the methods.  The method
    set of a pointer type includes the methods its element type declares
    with value receivers; calling one of those through the nil pointer
    panics. *)
Definition asExpressionEvaluator (v : GoValue) : option EvaluateMatchFn :=
  match v with
  | VEvaluator m _ => Some m
  | VPtr _ (VEvaluator m _) => Some m
  | VPtr (TEvaluator _ _) VZero => Some (fun _ _ _ => Panic)
  | _ => None
  end.

(** [v.Len()]; panics unless the kind is Array, Chan, Map, Slice or
    String, or [v] is a pointer to an array: of such a pointer, nil or
    not, it is the length of the array type (in the Go releases that
    have this case; older ones, as the one of the CI image, panic). *)
Definition Len (v : GoValue) : Go nat :=
  match underlyingValue v with
  | VList _ _ items => Return (List.length items)
  | VMap _ entries => Return (List.length entries)
  | VChan queued => Return queued
  | VBasic (string_ s) => Return (String.length s)
  | VPtr elemType _ =>
      match underlyingType elemType with
      | TArray n _ => Return n
      | _ => Panic
      end
  | _ => Panic
  end.

(** [reflect.ValueOf(i)] *)
Definition ValueOf (i : interface) : GoValue :=
  match i with
  | Nil => VZero
  | Box p => VBasic p
  | Opaque k => VOther k
  end.

(** Go's [==] on two values of primitive type held in interfaces: equal
    dynamic types and equal values (IEEE equality on floats). *)
Definition Primitive_eqb (p q : Primitive) : bool :=
  match p, q with
  | bool_ a, bool_ b => Bool.eqb a b
  | int_ a, int_ b | int8_ a, int8_ b | int16_ a, int16_ b
  | int32_ a, int32_ b | int64_ a, int64_ b
  | uint_ a, uint_ b | uint8_ a, uint8_ b | uint16_ a, uint16_ b
  | uint32_ a, uint32_ b | uint64_ a, uint64_ b => Z.eqb a b
  | float32_ a, float32_ b | float64_ a, float64_ b => PrimFloat.eqb a b
  | string_ a, string_ b => String.eqb a b
  | _, _ => false
  end.

(** Whether the type of [key] is assignable to [keyType], as
    [MapIndex] requires of its argument: the types are identical, or
    [keyType] is the empty interface.  A primitive has the predeclared
    type of its kind, to which no other type is identical; a value kept
    as [VOther] has none of the predeclared types of the primitives, and
    the zero Value has no type. *)
Definition assignableTo (key : GoValue) (keyType : GoType) : bool :=
  match key, keyType with
  | VZero, _ => false
  | VBasic p, TBasic kind =>
      bool_decide (kind = PrimitiveKind p)
      || bool_decide (kind = reflect.Interface)
  | _, TBasic kind => bool_decide (kind = reflect.Interface)
  | _, _ => false
  end.

(** The entry of a map under [key], handed to [found]; [absent] when
    there is none. *)
Fixpoint lookupEntry {R : Type} (key : Primitive) (absent : R)
    (found : GoValue -> R) (entries : list (Primitive * GoValue)) : R :=
  match entries with
  | [] => absent
  | (k, elem) :: rest =>
      if Primitive_eqb k key then found elem
      else lookupEntry key absent found rest
  end.

(** [m.MapIndex(key)] on a map with keys of [keyType]: the zero Value
    when the key is absent, a panic when [key] is not assignable to the
    key type. *)
Definition MapIndex (keyType : GoType) (entries : list (Primitive * GoValue))
    (key : GoValue) : Go GoValue :=
  if assignableTo key keyType then
    match key with
    | VBasic p => Return (lookupEntry p VZero (fun elem => elem) entries)
    | _ => Return VZero
    end
  else Panic.

(** The field of a struct named [name], handed to [found]; [absent] when
    there is none. *)
Fixpoint lookupField {R : Type} (name : string) (absent : R)
    (found : reflect.StructField GoValue -> R)
    (fields : list (reflect.StructField GoValue)) : R :=
  match fields with
  | [] => absent
  | field :: rest =>
      if String.eqb (reflect.Name field) name then found field
      else lookupField name absent found rest
  end.

(** [strings.Contains(s, substr)] *)
Fixpoint strings_Contains (s substr : string) : bool :=
  String.prefix substr s ||
  match s with
  | EmptyString => false
  | String _ rest => strings_Contains rest substr
  end.

(** ** The expression AST *)

(** Modelled from the spec: the AST of section 3.4, with the field names
    evaluate.go uses ([Selector], [Operator], [Value], [Raw], [Converted],
    [Operand], [Left], [Right]).  [Value] is a pointer, [None] when nil. *)
Record MatchValue : Set := {
  Raw : string;
  Converted : interface
}.

Record MatchExpr : Set := {
  Selector : list string;
  Operator : MatchOperator;
  Value : option MatchValue
}.

(** [Expr]: the three node types of the parser, and [OtherExpr] for any
    other value of the interface type. *)
Inductive Expr : Set :=
| UnaryExpr (Operator : UnaryOperator) (Operand : Expr)
| BinaryExpr (Left : Expr) (Operator : BinaryOperator) (Right : Expr)
| Match (node : MatchExpr)
| OtherExpr.

(** ** bexpr/evaluate.go *)

Definition doEqualBool (first second : interface) : Go bool :=
  match first, second with
  | Box (bool_ a), Box (bool_ b) => Return (Bool.eqb a b)
  | _, _ => Panic
  end.

Definition doEqualInt (first second : interface) : Go bool :=
  match first, second with
  | Box (int_ a), Box (int_ b) => Return (Z.eqb a b)
  | _, _ => Panic
  end.

Definition doEqualInt8 (first second : interface) : Go bool :=
  match first, second with
  | Box (int8_ a), Box (int8_ b) => Return (Z.eqb a b)
  | _, _ => Panic
  end.

Definition doEqualInt16 (first second : interface) : Go bool :=
  match first, second with
  | Box (int16_ a), Box (int16_ b) => Return (Z.eqb a b)
  | _, _ => Panic
  end.

Definition doEqualInt32 (first second : interface) : Go bool :=
  match first, second with
  | Box (int32_ a), Box (int32_ b) => Return (Z.eqb a b)
  | _, _ => Panic
  end.

Definition doEqualInt64 (first second : interface) : Go bool :=
  match first, second with
  | Box (int64_ a), Box (int64_ b) => Return (Z.eqb a b)
  | _, _ => Panic
  end.

Definition doEqualUint (first second : interface) : Go bool :=
  match first, second with
  | Box (uint_ a), Box (uint_ b) => Return (Z.eqb a b)
  | _, _ => Panic
  end.

Definition doEqualUint8 (first second : interface) : Go bool :=
  match first, second with
  | Box (uint8_ a), Box (uint8_ b) => Return (Z.eqb a b)
  | _, _ => Panic
  end.

Definition doEqualUint16 (first second : interface) : Go bool :=
  match first, second with
  | Box (uint16_ a), Box (uint16_ b) => Return (Z.eqb a b)
  | _, _ => Panic
  end.

Definition doEqualUint32 (first second : interface) : Go bool :=
  match first, second with
  | Box (uint32_ a), Box (uint32_ b) => Return (Z.eqb a b)
  | _, _ => Panic
  end.

Definition doEqualUint64 (first second : interface) : Go bool :=
  match first, second with
  | Box (uint64_ a), Box (uint64_ b) => Return (Z.eqb a b)
  | _, _ => Panic
  end.

Definition doEqualFloat32 (first second : interface) : Go bool :=
  match first, second with
  | Box (float32_ a), Box (float32_ b) => Return (PrimFloat.eqb a b)
  | _, _ => Panic
  end.

Definition doEqualFloat64 (first second : interface) : Go bool :=
  match first, second with
  | Box (float64_ a), Box (float64_ b) => Return (PrimFloat.eqb a b)
  | _, _ => Panic
  end.

Definition doEqualString (first second : interface) : Go bool :=
  match first, second with
  | Box (string_ a), Box (string_ b) => Return (String.eqb a b)
  | _, _ => Panic
  end.

(** The table of equality functions; [None] is the nil func a Go map
    yields for a key it does not hold. *)
Definition primitiveEqualityFns (kind : reflect.Kind)
  : option (interface -> interface -> Go bool) :=
  match kind with
  | reflect.Bool => Some doEqualBool
  | reflect.Int => Some doEqualInt
  | reflect.Int8 => Some doEqualInt8
  | reflect.Int16 => Some doEqualInt16
  | reflect.Int32 => Some doEqualInt32
  | reflect.Int64 => Some doEqualInt64
  | reflect.Uint => Some doEqualUint
  | reflect.Uint8 => Some doEqualUint8
  | reflect.Uint16 => Some doEqualUint16
  | reflect.Uint32 => Some doEqualUint32
  | reflect.Uint64 => Some doEqualUint64
  | reflect.Float32 => Some doEqualFloat32
  | reflect.Float64 => Some doEqualFloat64
  | reflect.String => Some doEqualString
  | _ => None
  end.

(** Calling a func value; the nil func panics. *)
Definition call (eqFn : option (interface -> interface -> Go bool))
    (first second : interface) : Go bool :=
  match eqFn with
  | Some f => f first second
  | None => Panic
  end.

(** Get rid of 0 to many levels of pointers to get at the real type *)
Fixpoint derefType (rtype : GoType) : GoType :=
  match rtype with
  | TPtr elem => derefType elem
  | TEvaluator _ underlying =>
      match TypeKind underlying with
      | reflect.Ptr => derefType underlying
      | _ => rtype
      end
  | _ => rtype
  end.

Definition getMatchExprValue (expression : MatchExpr) : interface :=
  match Value expression with
  | None => Nil
  | Some value =>
      match Converted value with
      | Nil => Box (string_ (Raw value))
      | converted => converted
      end
  end.

Definition doMatchEqual (expression : MatchExpr) (value : GoValue) : result :=
  let eqFn := primitiveEqualityFns (ValueKind value) in
  let matchValue := getMatchExprValue expression in
  let* second := Interface value in
  let* b := call eqFn matchValue second in
  Return (b, None).

(** The loop of [doMatchIn] over the items of a slice or array. *)
Fixpoint doMatchInItems (eqFn : option (interface -> interface -> Go bool))
    (matchValue : interface) (items : list GoValue) : result :=
  match items with
  | [] => Return (false, None)
  | item :: rest =>
      let* second := Interface (Indirect item) in
      let* b := call eqFn matchValue second in
      if b then Return (true, None)
      else doMatchInItems eqFn matchValue rest
  end.

Definition doMatchIn (expression : MatchExpr) (value : GoValue) : result :=
  let matchValue := getMatchExprValue expression in
  match underlyingValue value with
  | VMap keyType entries =>
      let* found := MapIndex keyType entries (ValueOf matchValue) in
      Return (IsValid found, None)
  | VList _ elemType items =>
      let itemType := derefType elemType in
      let eqFn := primitiveEqualityFns (TypeKind itemType) in
      doMatchInItems eqFn matchValue items
  | VBasic (string_ s) =>
      match matchValue with
      | Box (string_ substr) => Return (strings_Contains s substr, None)
      | _ => Panic
      end
  | _ =>
      Return (false, Some (ErrInContains (ValueKind value) (Selector expression)))
  end.

Definition doMatchIsEmpty (matcher : MatchExpr) (value : GoValue) : result :=
  let* n := Len value in
  Return (Nat.eqb n 0, None).

(** The operator applied at the end of the selector
    (the [switch expression.Operator] of evaluateMatchExpressionRecurse). *)
Definition matchOperation (expression : MatchExpr) (rvalue : GoValue) : result :=
  match Operator expression with
  | MatchEqual => doMatchEqual expression rvalue
  | MatchNotEqual =>
      let* (result, err) := doMatchEqual expression rvalue in
      match err with
      | None => Return (negb result, None)
      | Some _ => Return (false, err)
      end
  | MatchIn => doMatchIn expression rvalue
  | MatchNotIn =>
      let* (result, err) := doMatchIn expression rvalue in
      match err with
      | None => Return (negb result, None)
      | Some _ => Return (false, err)
      end
  | MatchIsEmpty => doMatchIsEmpty expression rvalue
  | MatchIsNotEmpty =>
      let* (result, err) := doMatchIsEmpty expression rvalue in
      match err with
      | None => Return (negb result, None)
      | Some _ => Return (false, err)
      end
  | MatchOperatorOther _ =>
      Return (false, Some (ErrInvalidMatchOperation (Operator expression)))
  end.

(** The answer at a map that does not hold the key. *)
Definition absentKey (operator : MatchOperator) : result :=
  match operator with
  | MatchEqual | MatchIsNotEmpty | MatchIn => Return (false, None)
  | _ => Return (true, None)
  end.

(** The loop over the items of a slice or array: [recurse] is the body's
    evaluation of one item at the same depth. *)
Fixpoint anyItem (recurse : GoValue -> result) (items : list GoValue) : result :=
  match items with
  | [] => Return (false, None)
  | item :: rest =>
      let* (result, err) := recurse item in
      match err with
      | Some _ => Return (false, err)
      | None =>
          (* operations on slices are implicity ANY operations currently so
             the first truthy evaluation we find we can stop *)
          if result then Return (true, None) else anyItem recurse rest
      end
  end.

Fixpoint evaluateMatchExpressionRecurse (expression : MatchExpr) (depth : nat)
    (rvalue : GoValue) (fields : FieldConfigurations) {struct rvalue} : result :=
  if (List.length (Selector expression) <=? depth)%nat then
    matchOperation expression rvalue
  else
    match rvalue with
    | VStruct structFields =>
        let fieldName := nth depth (Selector expression) "" in
        match index fields fieldName with
        | None => Panic
            (* fieldConfig.StructFieldName through a nil pointer *)
        | Some fieldConfig =>
            let fieldName :=
              if String.eqb (StructFieldName fieldConfig) "" then fieldName
              else StructFieldName fieldConfig in
            (* rvalue.FieldByName(fieldName) is the zero Value when there
               is no such field, and value.Interface() panics on the zero
               Value and on a value read from an unexported field *)
            lookupField fieldName Panic
              (fun field =>
                 let value := Indirect (reflect.Content field) in
                 if negb (String.eqb (reflect.PkgPath field) "") then Panic
                 else if negb (IsValid value) then Panic
                 else
                   match asExpressionEvaluator value with
                   | Some EvaluateMatch =>
                       EvaluateMatch (skipn (S depth) (Selector expression))
                         (Operator expression) (getMatchExprValue expression)
                   | None =>
                       evaluateMatchExpressionRecurse expression (S depth) value
                         (SubFields fieldConfig)
                   end)
              structFields
        end
    | VList _ _ items =>
        anyItem
          (fun elem =>
             let item := Indirect elem in
             evaluateMatchExpressionRecurse expression depth item fields)
          items
    | VMap keyType entries =>
        let key := string_ (nth depth (Selector expression) "") in
        (* rvalue.MapIndex panics on a key that does not fit the key type *)
        if negb (assignableTo (VBasic key) keyType) then Panic
        else
          lookupEntry key (absentKey (Operator expression))
            (fun elem =>
               let value := Indirect elem in
               if negb (IsValid value) then
                 (* when the key doesn't exist in the map *)
                 absentKey (Operator expression)
               else
                 match asExpressionEvaluator value with
                 | Some EvaluateMatch =>
                     EvaluateMatch (skipn (S depth) (Selector expression))
                       (Operator expression) (getMatchExprValue expression)
                 | None =>
                     match index fields FieldNameAny with
                     | None => Panic
                         (* fields[FieldNameAny].SubFields through a nil pointer *)
                     | Some anyConfig =>
                         evaluateMatchExpressionRecurse expression (S depth) value
                           (SubFields anyConfig)
                     end
                 end)
            entries
    | VEvaluator _ underlying =>
        (* rvalue.Kind() and the accessors see the representation *)
        evaluateMatchExpressionRecurse expression depth underlying fields
    | _ =>
        Return (false,
                Some (ErrNestedSelection (firstn depth (Selector expression))
                        (ValueKind rvalue)))
    end.

(** [datum] is the reflected datum, [reflect.ValueOf(datum)]. *)
Definition evaluateMatchExpression (expression : MatchExpr) (datum : GoValue)
    (fields : FieldConfigurations) : result :=
  match asExpressionEvaluator datum with
  | Some EvaluateMatch =>
      EvaluateMatch (Selector expression) (Operator expression)
        (getMatchExprValue expression)
  | None =>
      let rvalue := Indirect datum in
      evaluateMatchExpressionRecurse expression 0 rvalue fields
  end.

Fixpoint evaluate (ast : Expr) (datum : GoValue) (fields : FieldConfigurations)
  : result :=
  match ast with
  | UnaryExpr UnaryOpNot Operand =>
      let* (result, err) := evaluate Operand datum fields in
      Return (negb result, err)
  | BinaryExpr Left BinaryOpAnd Right =>
      let* (result, err) := evaluate Left datum fields in
      if notNil err || negb result then Return (result, err)
      else evaluate Right datum fields
  | BinaryExpr Left BinaryOpOr Right =>
      let* (result, err) := evaluate Left datum fields in
      if notNil err || result then Return (result, err)
      else evaluate Right datum fields
  | Match node => evaluateMatchExpression node datum fields
  | _ => Return (false, Some ErrInvalidASTNode)
  end.

(** ** The schema deriver (field configurations) *)

(** Modelled from the spec: the table [primitiveCoercionFns] is declared in
    a file that is not among the sources.  Sections 3.1 and 3.2 give one
    coercion function for each of the fourteen primitive kinds, the kinds
    of [primitiveEqualityFns]. *)
Definition primitiveCoercionFns (kind : reflect.Kind)
  : option FieldValueCoercionFn :=
  match kind with
  | reflect.Bool => Some CoerceBool
  | reflect.Int => Some CoerceInt
  | reflect.Int8 => Some CoerceInt8
  | reflect.Int16 => Some CoerceInt16
  | reflect.Int32 => Some CoerceInt32
  | reflect.Int64 => Some CoerceInt64
  | reflect.Uint => Some CoerceUint
  | reflect.Uint8 => Some CoerceUint8
  | reflect.Uint16 => Some CoerceUint16
  | reflect.Uint32 => Some CoerceUint32
  | reflect.Uint64 => Some CoerceUint64
  | reflect.Float32 => Some CoerceFloat32
  | reflect.Float64 => Some CoerceFloat64
  | reflect.String => Some CoerceString
  | _ => None
  end.

Definition setStructFieldName (cfg : FieldConfiguration) (name : string)
  : FieldConfiguration :=
  {| StructFieldName := name; SubFields := SubFields cfg;
     CoerceFn := CoerceFn cfg;
     SupportedOperations := SupportedOperations cfg |}.

(** [strings.Split(s, sep)] for a separator of one byte. *)
Fixpoint strings_Split (s : string) (sep : ascii) : list string :=
  match s with
  | EmptyString => [""]
  | String c rest =>
      if Ascii.eqb c sep then "" :: strings_Split rest sep
      else
        match strings_Split rest sep with
        | [] => [String c ""]
        | part :: parts => String c part :: parts
        end
  end.

(** The names a struct field is selectable under; [None] when the loop
    body of generateStructFieldConfigurations leaves the field out with
    [continue]. *)
Definition structFieldNames (field : reflect.StructField GoType)
  : option (list string) :=
  let fieldTag := reflect.Tag field in
  if negb (String.eqb (reflect.PkgPath field) "") then
    (* we cant handle unexported fields using reflection *)
    None
  else if negb (String.eqb fieldTag "") then
    match strings_Split fieldTag "," with
    | [] => Some [reflect.Name field]
    | (first :: _) as parts =>
        if String.eqb first "-" then None else Some parts
    end
  else Some [reflect.Name field].

(** [for _, name := range fieldNames { fieldConfigs[FieldName(name)] = cfg }] *)
Definition linkNames (cfg : FieldConfiguration) (fieldNames : list string)
    (fieldConfigs : gmap string FieldConfiguration)
  : gmap string FieldConfiguration :=
  fold_left (fun configs name => <[name := cfg]> configs) fieldNames fieldConfigs.

Section Derivers.

(** The deriver the three helpers call back:
    generateFieldConfigurationInternal. *)
Variable internal : GoType -> Go (option FieldConfiguration * option error).

Definition sliceFieldConfiguration (elemType : GoType)
  : Go (option FieldConfiguration * option error) :=
  match primitiveCoercionFns (TypeKind elemType) with
  | Some coerceFn =>
      (* slices of primitives have somewhat different supported operations *)
      Return (Some {| StructFieldName := ""; SubFields := None;
                      CoerceFn := Some coerceFn;
                      SupportedOperations :=
                        [MatchIn; MatchNotIn; MatchIsEmpty; MatchIsNotEmpty] |},
              None)
  | None =>
      let* (subfield, err) := internal elemType in
      if notNil err then Return (None, err)
      else
        let cfg := {| StructFieldName := ""; SubFields := None;
                      CoerceFn := None;
                      SupportedOperations := [MatchIsEmpty; MatchIsNotEmpty] |} in
        match subfield with
        | Some subfield =>
            if (0 <? len (SubFields subfield))%nat then
              Return (Some {| StructFieldName := ""; SubFields := SubFields subfield;
                              CoerceFn := None;
                              SupportedOperations := SupportedOperations cfg |},
                      None)
            else Return (Some cfg, None)
        | None => Return (Some cfg, None)
        end
  end.

Definition mapFieldConfiguration (keyType valueType : GoType)
  : Go (option FieldConfiguration * option error) :=
  match TypeKind keyType with
  | reflect.String =>
      let* (subfield, err) := internal valueType in
      if notNil err then Return (None, err)
      else
        let operations := [MatchIsEmpty; MatchIsNotEmpty; MatchIn; MatchNotIn] in
        match subfield with
        | Some subfield =>
            Return (Some {| StructFieldName := "";
                            SubFields := Some {[ FieldNameAny := subfield ]};
                            CoerceFn := Some CoerceString;
                            SupportedOperations := operations |},
                    None)
        | None =>
            Return (Some {| StructFieldName := ""; SubFields := None;
                            CoerceFn := Some CoerceString;
                            SupportedOperations := operations |},
                    None)
        end
  | _ =>
      (* For maps with non-string keys we can really only do emptiness
         checks and cannot index into them at all *)
      Return (Some {| StructFieldName := ""; SubFields := None;
                      CoerceFn := None;
                      SupportedOperations := [MatchIsEmpty; MatchIsNotEmpty] |},
              None)
  end.

(** The loop of generateStructFieldConfigurations over the fields that
    remain, [fieldConfigs] being the map built so far. *)
Fixpoint structFieldsLoop (fields : list (reflect.StructField GoType))
    (fieldConfigs : gmap string FieldConfiguration)
  : Go (FieldConfigurations * option error) :=
  match fields with
  | [] => Return (Some fieldConfigs, None)
  | field :: rest =>
      match structFieldNames field with
      | None => structFieldsLoop rest fieldConfigs
      | Some fieldNames =>
          let* (cfg, err) := internal (derefType (reflect.Content field)) in
          if notNil err then Return (None, err)
          else
            match cfg with
            | None => Panic
                (* cfg.StructFieldName = field.Name through a nil pointer *)
            | Some cfg =>
                let cfg := setStructFieldName cfg (reflect.Name field) in
                structFieldsLoop rest (linkNames cfg fieldNames fieldConfigs)
            end
      end
  end.

(** [rtype.NumField()] panics unless the kind is Struct. *)
Definition structFieldConfigurations (rtype : GoType)
  : Go (FieldConfigurations * option error) :=
  match underlyingType rtype with
  | TStruct fields => structFieldsLoop fields ∅
  | _ => Panic
  end.

End Derivers.

Fixpoint generateFieldConfigurationInternal (rtype : GoType)
  : Go (option FieldConfiguration * option error) :=
  match Implements rtype with
  | Some configs =>
      (* Handle those types that implement our interface *)
      match TypeKind rtype with
      | reflect.Ptr | reflect.Interface =>
          (* reflect.New(rtype) is a pointer to a pointer or to an
             interface: it has no methods and the type assertion panics *)
          Panic
      | _ =>
          Return (Some {| StructFieldName := ""; SubFields := configs;
                          CoerceFn := None; SupportedOperations := [] |},
                  None)
      end
  | None =>
      match primitiveCoercionFns (TypeKind rtype) with
      | Some coerceFn =>
          (* Handle primitive types *)
          Return (Some {| StructFieldName := ""; SubFields := None;
                          CoerceFn := Some coerceFn;
                          SupportedOperations := [MatchEqual; MatchNotEqual] |},
                  None)
      | None =>
          (* Handle compound types *)
          match rtype with
          | TMap key elem =>
              mapFieldConfiguration generateFieldConfigurationInternal
                (derefType key) (derefType elem)
          | TArray _ elem | TSlice elem =>
              sliceFieldConfiguration generateFieldConfigurationInternal
                (derefType elem)
          | TStruct fields =>
              let* (subfields, err) :=
                structFieldConfigurations generateFieldConfigurationInternal
                  (TStruct fields) in
              if notNil err then Return (None, err)
              else
                Return (Some {| StructFieldName := ""; SubFields := subfields;
                                CoerceFn := None; SupportedOperations := [] |},
                        None)
          | _ =>
              (* unsupported types are just not filterable *)
              Return (None, None)
          end
      end
  end.

Definition generateSliceFieldConfiguration :=
  sliceFieldConfiguration generateFieldConfigurationInternal.

Definition generateMapFieldConfiguration :=
  mapFieldConfiguration generateFieldConfigurationInternal.

Definition generateStructFieldConfigurations :=
  structFieldConfigurations generateFieldConfigurationInternal.

(** [topLevelType] is the dynamic type of the argument; [None] is the nil
    interface, of which [reflect.TypeOf] is nil. *)
Definition generateFieldConfigurationsAndType (topLevelType : option GoType)
  : Go (FieldConfigurations * GoType * option error) :=
  match topLevelType with
  | None => Panic
  | Some type =>
      let rtype := derefType type in
      match Implements type with
      | Some configs => Return (configs, rtype, None)
      | None =>
          match underlyingType rtype with
          | TStruct _ =>
              let* (fields, err) := generateStructFieldConfigurations rtype in
              Return (fields, rtype, err)
          | TMap key elem =>
              if negb (bool_decide (TypeKind key = reflect.String)) then
                Return (None, rtype, Some ErrMapKeysNotStrings)
              else
                let elemType := derefType elem in
                let* (field, err) := generateFieldConfigurationInternal elemType in
                if notNil err then Return (None, rtype, err)
                else
                  match field with
                  | None => Return (None, rtype, None)
                  | Some field =>
                      Return (Some {[ FieldNameAny := field ]}, rtype, None)
                  end
          | _ => Return (None, rtype, Some ErrInvalidTopLevelType)
          end
      end
  end.

Definition GenerateFieldConfigurations (topLevelType : option GoType)
  : Go (FieldConfigurations * option error) :=
  let* (fields, _, err) := generateFieldConfigurationsAndType topLevelType in
  Return (fields, err).

(** * Notions used in the statements *)

(** The items of a collection that evaluate to false without error under
    [recurse]. *)
Definition noMatch (recurse : GoValue -> result) (item : GoValue) : Prop :=
  recurse item = Return (false, None).

(** [expression] with its operator replaced. *)
Definition withOperator (operator : MatchOperator) (expression : MatchExpr)
  : MatchExpr :=
  {| Selector := Selector expression; Operator := operator;
     Value := Value expression |}.

(** What a negated operator makes of the outcome of its positive form. *)
Definition negated (outcome : result) : result :=
  match outcome with
  | Return (b, None) => Return (negb b, None)
  | Return (_, Some err) => Return (false, Some err)
  | Panic => Panic
  end.

(** The top-level types the deriver accepts. *)

Definition selfDescribing (type : GoType) : Prop := Implements type <> None.

Definition isRecord (rtype : GoType) : Prop :=
  exists fields, underlyingType rtype = TStruct fields.

Definition isMap (rtype : GoType) : Prop :=
  exists key elem, underlyingType rtype = TMap key elem.

Definition isStringKeyedMap (rtype : GoType) : Prop :=
  exists key elem,
    underlyingType rtype = TMap key elem /\ TypeKind key = reflect.String.

(** ** An example with a self-describing element

    [type Probe int] implements ExpressionEvaluator: its EvaluateMatch
    fails on a negative receiver and matches otherwise.  The data is
    [struct { Items []Item }] with [type Item struct { P Probe }]. *)

Definition probeConfigurations : FieldConfigurations :=
  Some {[ "ok" := {| StructFieldName := ""; SubFields := None; CoerceFn := None;
                     SupportedOperations := [MatchIsEmpty] |} ]}.

Definition probeEvaluateMatch (receiver : Z) : EvaluateMatchFn :=
  fun _ _ _ =>
    if (receiver <? 0)%Z then Return (false, Some (ErrCustom "negative probe"))
    else Return (true, None).

Definition probeType : GoType := TEvaluator probeConfigurations (TBasic reflect.Int).

Definition probe (n : Z) : GoValue :=
  VEvaluator (probeEvaluateMatch n) (VBasic (int_ n)).

Definition exported {A : Type} (name : string) (content : A) : reflect.StructField A :=
  {| reflect.Name := name; reflect.PkgPath := ""; reflect.Tag := "";
     reflect.Content := content |}.

Definition itemType : GoType := TStruct [exported "P" probeType].

Definition item (n : Z) : GoValue := VStruct [exported "P" (probe n)].

Definition itemsType : GoType := TStruct [exported "Items" (TSlice itemType)].

(** The schema derived for the data, and the part of it in force at the
    items. *)
Definition itemsSchema : FieldConfigurations :=
  match GenerateFieldConfigurations (Some itemsType) with
  | Return (fields, _) => fields
  | Panic => None
  end.

Definition itemSchema : FieldConfigurations :=
  match index itemsSchema "Items" with
  | Some config => SubFields config
  | None => None
  end.

(** [Items.P.ok is empty] *)
Definition probeExpression : MatchExpr :=
  {| Selector := ["Items"; "P"; "ok"]; Operator := MatchIsEmpty; Value := None |}.

(** ** The data of scenario 3 of the specification

    [struct { Meta map[string]string `bexpr:"meta"` }] with the value
    [{ meta: { "env": "prod" } }]. *)

Definition metaType : GoType :=
  TStruct [ {| reflect.Name := "Meta"; reflect.PkgPath := ""; reflect.Tag := "meta";
               reflect.Content := TMap (TBasic reflect.String) (TBasic reflect.String) |} ].

Definition metaSchema : FieldConfigurations :=
  match GenerateFieldConfigurations (Some metaType) with
  | Return (fields, _) => fields
  | Panic => None
  end.

Definition metaDatum : GoValue :=
  VStruct [exported "Meta"
             (VMap (TBasic reflect.String)
                [(string_ "env", VBasic (string_ "prod"))])].

Definition matchText (selector : list string) (operator : MatchOperator)
    (raw : string) : Expr :=
  Match {| Selector := selector; Operator := operator;
           Value := Some {| Raw := raw; Converted := Box (string_ raw) |} |}.

(** ** A struct with a map keyed by pointers to strings

    [struct { M map[*string]int }] holding an empty map, and the
    expression [M.foo == 1] with its value coerced to an int. *)

Definition pointerKeyedType : GoType :=
  TStruct [exported "M" (TMap (TPtr (TBasic reflect.String)) (TBasic reflect.Int))].

Definition pointerKeyedSchema : FieldConfigurations :=
  match GenerateFieldConfigurations (Some pointerKeyedType) with
  | Return (fields, _) => fields
  | Panic => None
  end.

Definition pointerKeyedDatum : GoValue :=
  VStruct [exported "M" (VMap (TPtr (TBasic reflect.String)) [])].

Definition pointerKeyedExpression : MatchExpr :=
  {| Selector := ["M"; "foo"]; Operator := MatchEqual;
     Value := Some {| Raw := "1"; Converted := Box (int_ 1) |} |}.

(** An expression whose evaluation panics on every datum that is a
    struct: its selector has no configuration. *)
Definition unconfigured : Expr :=
  Match {| Selector := ["nowhere"]; Operator := MatchIsEmpty; Value := None |}.

(** ** Types that stand for Go types

    [TBasic] is for the kinds without a constructor of their own. *)

Definition compositeKind (kind : reflect.Kind) : bool :=
  match kind with
  | reflect.Array | reflect.Map | reflect.Ptr | reflect.Slice | reflect.Struct => true
  | _ => false
  end.

Fixpoint wellKinded (rtype : GoType) : Prop :=
  match rtype with
  | TBasic kind => compositeKind kind = false
  | TPtr elem | TSlice elem | TArray _ elem => wellKinded elem
  | TMap key elem => wellKinded key /\ wellKinded elem
  | TStruct fields =>
      (fix all (fields : list (reflect.StructField GoType)) : Prop :=
         match fields with
         | [] => True
         | field :: rest => wellKinded (reflect.Content field) /\ all rest
         end) fields
  | TEvaluator _ underlying => wellKinded underlying
  end.

(** ** Notions for the further properties *)

(** The values MatchIn is implemented on: maps, slices and arrays, and
    strings. *)
Definition container (value : GoValue) : bool :=
  match underlyingValue value with
  | VMap _ _ | VList _ _ _ | VBasic (string_ _) => true
  | _ => false
  end.

(** The Match nodes of an expression that evaluation can reach: those
    under the connectives Not, And and Or. *)
Fixpoint matchNodes (ast : Expr) : list MatchExpr :=
  match ast with
  | UnaryExpr UnaryOpNot Operand => matchNodes Operand
  | BinaryExpr Left BinaryOpAnd Right | BinaryExpr Left BinaryOpOr Right =>
      matchNodes Left ++ matchNodes Right
  | Match node => [node]
  | _ => []
  end.

(** The types with a case of their own in the deriver's switch over the
    compound kinds. *)
Definition compound (rtype : GoType) : bool :=
  match rtype with
  | TMap _ _ | TSlice _ | TArray _ _ | TStruct _ => true
  | _ => false
  end.

(** [strings.Join(parts, sep)] for a separator of one byte. *)
Fixpoint strings_Join (parts : list string) (sep : ascii) : string :=
  match parts with
  | [] => ""
  | [part] => part
  | part :: rest => String.append part (String sep (strings_Join rest sep))
  end.

(** Induction over types, with the fields of a struct. *)
Section GoType_nested_ind.

Variable P : GoType -> Prop.
Hypothesis HBasic : forall kind, P (TBasic kind).
Hypothesis HPtr : forall elem, P elem -> P (TPtr elem).
Hypothesis HMap : forall key elem, P key -> P elem -> P (TMap key elem).
Hypothesis HSlice : forall elem, P elem -> P (TSlice elem).
Hypothesis HArray : forall n elem, P elem -> P (TArray n elem).
Hypothesis HStruct :
  forall fields, Forall (fun field => P (reflect.Content field)) fields ->
                 P (TStruct fields).
Hypothesis HEvaluator : forall configs underlying,
  P underlying -> P (TEvaluator configs underlying).

Fixpoint GoType_nested_ind (rtype : GoType) : P rtype :=
  match rtype with
  | TBasic kind => HBasic kind
  | TPtr elem => HPtr elem (GoType_nested_ind elem)
  | TMap key elem => HMap key elem (GoType_nested_ind key) (GoType_nested_ind elem)
  | TSlice elem => HSlice elem (GoType_nested_ind elem)
  | TArray n elem => HArray n elem (GoType_nested_ind elem)
  | TStruct fields =>
      HStruct fields
        ((fix all (fields : list (reflect.StructField GoType))
            : Forall (fun field => P (reflect.Content field)) fields :=
            match fields with
            | [] => List.Forall_nil _
            | field :: rest =>
                @List.Forall_cons _ _ field rest
                  (GoType_nested_ind (reflect.Content field)) (all rest)
            end) fields)
  | TEvaluator configs underlying =>
      HEvaluator configs underlying (GoType_nested_ind underlying)
  end.

End GoType_nested_ind.

(** * Properties *)

(** ** The scenarios of the specification on the model *)

Example scenario_meta :
  evaluate (matchText ["meta"] MatchIn "env") metaDatum metaSchema
  = Return (true, None)
  /\ evaluate (matchText ["meta"; "env"] MatchEqual "prod") metaDatum metaSchema
     = Return (true, None)
  /\ evaluate (matchText ["meta"; "env"] MatchNotEqual "prod") metaDatum metaSchema
     = Return (false, None)
  /\ evaluate (matchText ["meta"; "missing"] MatchEqual "x") metaDatum metaSchema
     = Return (false, None)
  /\ evaluate (matchText ["meta"; "missing"] MatchNotEqual "x") metaDatum metaSchema
     = Return (true, None).
Proof. repeat split; vm_compute; reflexivity. Qed.

(** ** Unfolding the traversal *)

Lemma evaluateMatchExpressionRecurse_end expression depth rvalue fields :
  List.length (Selector expression) <= depth ->
  evaluateMatchExpressionRecurse expression depth rvalue fields
  = matchOperation expression rvalue.
Proof.
  intros Hend. apply Nat.leb_le in Hend.
  destruct rvalue; cbn [evaluateMatchExpressionRecurse]; rewrite Hend; reflexivity.
Qed.

Lemma evaluateMatchExpressionRecurse_underlying expression depth rvalue fields :
  depth < List.length (Selector expression) ->
  evaluateMatchExpressionRecurse expression depth rvalue fields
  = evaluateMatchExpressionRecurse expression depth (underlyingValue rvalue) fields.
Proof.
  intros Hdepth. apply Nat.leb_gt in Hdepth.
  induction rvalue; try reflexivity.
  cbn [evaluateMatchExpressionRecurse underlyingValue]. rewrite Hdepth. assumption.
Qed.

Lemma evaluateMatchExpressionRecurse_list expression depth array elemType items fields :
  depth < List.length (Selector expression) ->
  evaluateMatchExpressionRecurse expression depth (VList array elemType items) fields
  = anyItem
      (fun elem =>
         evaluateMatchExpressionRecurse expression depth (Indirect elem) fields)
      items.
Proof.
  intros Hdepth. apply Nat.leb_gt in Hdepth.
  cbn [evaluateMatchExpressionRecurse]. rewrite Hdepth. reflexivity.
Qed.

(** A string key is found in the entries exactly when it is among the keys. *)
Lemma Primitive_eqb_string (k : Primitive) (s : string) :
  Primitive_eqb k (string_ s) = true <-> k = string_ s.
Proof.
  destruct k; cbn; try (split; [discriminate | intros [=]]).
  rewrite String.eqb_eq. split; [intros -> | intros [=]]; congruence.
Qed.

Lemma lookupEntry_absent {R : Type} (s : string) (absent : R)
    (found : GoValue -> R) (entries : list (Primitive * GoValue)) :
  ~ In (string_ s) (map fst entries) ->
  lookupEntry (string_ s) absent found entries = absent.
Proof.
  induction entries as [|[k elem] rest IH]; intros Habsent; [reflexivity|].
  cbn [lookupEntry]. destruct (Primitive_eqb k (string_ s)) eqn:Heq.
  - apply Primitive_eqb_string in Heq. subst k.
    exfalso. apply Habsent. now left.
  - apply IH. intros Hin. apply Habsent. now right.
Qed.

(** ** Evaluation of Match expressions *)

(** C1 - absent-key convention, at the input where the code departs from
    the claim.  For [struct { M map[*string]int }] the deriver strips the
    pointer of the key type and gives [M] the wildcard sub-field of a map
    keyed by strings, so that the selector [M.foo] with MatchEqual is
    admitted; the map holds no key "foo", and evaluation panics in
    [MapIndex], a string not being assignable to the key type, where
    the convention gives false without error. *)
Theorem absent_key_pointer_keyed_map :
  GenerateFieldConfigurations (Some pointerKeyedType)
  = Return (pointerKeyedSchema, None)
  /\ index pointerKeyedSchema "M"
     = Some {| StructFieldName := "M";
               SubFields :=
                 Some {[ FieldNameAny :=
                           {| StructFieldName := ""; SubFields := None;
                              CoerceFn := Some CoerceInt;
                              SupportedOperations := [MatchEqual; MatchNotEqual] |} ]};
               CoerceFn := Some CoerceString;
               SupportedOperations :=
                 [MatchIsEmpty; MatchIsNotEmpty; MatchIn; MatchNotIn] |}
  /\ evaluate (Match pointerKeyedExpression) pointerKeyedDatum pointerKeyedSchema
     = Panic.
Proof. repeat split; vm_compute; reflexivity. Qed.

(** X26 - the absent-key convention on a map keyed by strings.  At a
    selector step [depth] that addresses a map whose key type is the type
    string and which does not hold the key [Selector[depth]], evaluation
    returns false without error for MatchEqual, MatchIn and
    MatchIsNotEmpty, and true without error for MatchNotEqual, MatchNotIn
    and MatchIsEmpty. *)
Theorem absent_key_convention expression depth rvalue keyType entries fields :
  depth < List.length (Selector expression) ->
  underlyingValue rvalue = VMap keyType entries ->
  keyType = TBasic reflect.String ->
  ~ In (string_ (nth depth (Selector expression) "")) (map fst entries) ->
  (In (Operator expression) [MatchEqual; MatchIn; MatchIsNotEmpty] ->
   evaluateMatchExpressionRecurse expression depth rvalue fields
   = Return (false, None))
  /\ (In (Operator expression) [MatchNotEqual; MatchNotIn; MatchIsEmpty] ->
      evaluateMatchExpressionRecurse expression depth rvalue fields
      = Return (true, None)).
Proof.
  intros Hdepth Hmap -> Habsent.
  rewrite evaluateMatchExpressionRecurse_underlying by assumption.
  rewrite Hmap. cbn [evaluateMatchExpressionRecurse].
  apply Nat.leb_gt in Hdepth. rewrite Hdepth.
  unfold assignableTo. cbn [PrimitiveKind].
  rewrite bool_decide_eq_true_2 by reflexivity. cbn [orb negb].
  rewrite lookupEntry_absent by assumption.
  split; intros Hop; cbn [In] in Hop;
    repeat (destruct Hop as [<-|Hop]; [reflexivity|]); destruct Hop.
Qed.

Lemma absent_key_convention_witness :
  let data := VMap (TBasic reflect.String) [(string_ "env", VBasic (string_ "prod"))] in
  let value := Some {| Raw := "x"; Converted := Nil |} in
  evaluateMatchExpressionRecurse
    {| Selector := ["meta"; "missing"]; Operator := MatchEqual; Value := value |}
    1 data None = Return (false, None)
  /\ evaluateMatchExpressionRecurse
       {| Selector := ["meta"; "missing"]; Operator := MatchNotEqual; Value := value |}
       1 data None = Return (true, None).
Proof.
  split.
  - apply (absent_key_convention _ 1 _ (TBasic reflect.String)
             [(string_ "env", VBasic (string_ "prod"))] None);
      [simpl; lia | reflexivity | reflexivity
      | simpl; intros [H|[]]; discriminate H | simpl; auto].
  - apply (absent_key_convention _ 1 _ (TBasic reflect.String)
             [(string_ "env", VBasic (string_ "prod"))] None);
      [simpl; lia | reflexivity | reflexivity
      | simpl; intros [H|[]]; discriminate H | simpl; auto].
Defined.

(** *** The loop over an ordered collection *)

Section AnyItem.

Variable recurse : GoValue -> result.

Lemma anyItem_skip (pre rest : list GoValue) :
  Forall (noMatch recurse) pre -> anyItem recurse (pre ++ rest) = anyItem recurse rest.
Proof.
  induction 1 as [|item pre Hitem _ IH]; [reflexivity|].
  cbn [app anyItem]. rewrite Hitem. exact IH.
Qed.

Lemma anyItem_none (items : list GoValue) :
  Forall (noMatch recurse) items -> anyItem recurse items = Return (false, None).
Proof.
  intros Hnone. rewrite <- (app_nil_r items). now rewrite anyItem_skip.
Qed.

Lemma anyItem_first_true (pre post : list GoValue) (item : GoValue) :
  Forall (noMatch recurse) pre -> recurse item = Return (true, None) ->
  anyItem recurse (pre ++ item :: post) = Return (true, None).
Proof.
  intros Hpre Hitem. rewrite anyItem_skip by assumption.
  cbn [anyItem]. now rewrite Hitem.
Qed.

Lemma anyItem_first_error (pre post : list GoValue) (item : GoValue) b err :
  Forall (noMatch recurse) pre -> recurse item = Return (b, Some err) ->
  anyItem recurse (pre ++ item :: post) = Return (false, Some err).
Proof.
  intros Hpre Hitem. rewrite anyItem_skip by assumption.
  cbn [anyItem]. now rewrite Hitem.
Qed.

Lemma anyItem_first_panic (pre post : list GoValue) (item : GoValue) :
  Forall (noMatch recurse) pre -> recurse item = Panic ->
  anyItem recurse (pre ++ item :: post) = Panic.
Proof.
  intros Hpre Hitem. rewrite anyItem_skip by assumption.
  cbn [anyItem]. now rewrite Hitem.
Qed.

Lemma anyItem_true_inv (items : list GoValue) :
  anyItem recurse items = Return (true, None) ->
  exists pre item post,
    items = pre ++ item :: post /\ Forall (noMatch recurse) pre
    /\ recurse item = Return (true, None).
Proof.
  induction items as [|item rest IH]; [discriminate|].
  cbn [anyItem]. destruct (recurse item) as [[b [err|]]|] eqn:Hitem;
    cbn [bind]; try discriminate.
  destruct b.
  - intros _. exists [], item, rest. repeat split; [constructor | assumption].
  - intros Hrest. destruct (IH Hrest) as (pre & x & post & -> & Hpre & Hx).
    exists (item :: pre), x, post. repeat split; [|assumption].
    constructor; assumption.
Qed.

End AnyItem.

(** C2 - existential semantics over an ordered collection.  At a
    non-terminal selector position a slice or array is evaluated item by
    item, in order, at the same depth: the first item that evaluates to
    true makes the result true, the first item that evaluates to an error
    makes the result that error, and the result is false without error
    when no item matches.  The Match is true on the list iff it is true
    on some item all of whose predecessors evaluate to false without
    error. *)
Theorem list_existential expression depth rvalue array elemType items fields :
  depth < List.length (Selector expression) ->
  underlyingValue rvalue = VList array elemType items ->
  let onItem := fun elem =>
    evaluateMatchExpressionRecurse expression depth (Indirect elem) fields in
  let onList := evaluateMatchExpressionRecurse expression depth rvalue fields in
  (forall pre elem post,
     items = pre ++ elem :: post -> Forall (noMatch onItem) pre ->
     (onItem elem = Return (true, None) -> onList = Return (true, None))
     /\ (forall b err, onItem elem = Return (b, Some err) ->
         onList = Return (false, Some err)))
  /\ (Forall (noMatch onItem) items -> onList = Return (false, None))
  /\ (onList = Return (true, None) <->
      exists pre elem post,
        items = pre ++ elem :: post /\ Forall (noMatch onItem) pre
        /\ onItem elem = Return (true, None)).
Proof.
  intros Hdepth Hlist onItem onList.
  assert (HonList : onList = anyItem onItem items).
  { unfold onList. rewrite evaluateMatchExpressionRecurse_underlying by assumption.
    rewrite Hlist. now apply evaluateMatchExpressionRecurse_list. }
  rewrite HonList. split; [|split].
  - intros pre elem post -> Hpre. split.
    + now apply anyItem_first_true.
    + intros b err. now apply anyItem_first_error.
  - apply anyItem_none.
  - split.
    + apply anyItem_true_inv.
    + intros (pre & elem & post & -> & Hpre & Helem). now apply anyItem_first_true.
Qed.

Lemma list_existential_witness :
  evaluateMatchExpressionRecurse probeExpression 1
    (VList false itemType [item 5; item (-1)]) itemSchema
  = Return (true, None).
Proof.
  refine (proj1 (proj1 (list_existential probeExpression 1
                          (VList false itemType [item 5; item (-1)])
                          false itemType [item 5; item (-1)] itemSchema _ eq_refl)
                   [] (item 5) [item (-1)] eq_refl (List.Forall_nil _)) _).
  - simpl. lia.
  - vm_compute. reflexivity.
Defined.

(** The refuted reading of C2: on the list [item (-1); item 1] the second
    item matches, yet the list evaluates to the error of the first. *)
Lemma list_existential_counterexample :
  let items := [item (-1); item 1] in
  let onItem := fun elem =>
    evaluateMatchExpressionRecurse probeExpression 1 (Indirect elem) itemSchema in
  let onList :=
    evaluateMatchExpressionRecurse probeExpression 1
      (VList false itemType items) itemSchema in
  onList = Return (false, Some (ErrCustom "negative probe"))
  /\ evaluate (Match probeExpression)
       (VStruct [exported "Items" (VList false itemType items)]) itemsSchema
     = Return (false, Some (ErrCustom "negative probe"))
  /\ ~ (onList = Return (true, None) <->
        exists elem, In elem items /\ onItem elem = Return (true, None)).
Proof.
  cbv zeta. split; [vm_compute; reflexivity|]. split; [vm_compute; reflexivity|].
  intros [_ Hclaim].
  assert (Hlist : evaluateMatchExpressionRecurse probeExpression 1
                    (VList false itemType [item (-1); item 1]) itemSchema
                  = Return (true, None)).
  { apply Hclaim. exists (item 1). split; [right; left; reflexivity|].
    vm_compute. reflexivity. }
  vm_compute in Hlist. discriminate Hlist.
Qed.

(** *** The operators at the end of the selector *)

Lemma doMatchEqual_withOperator operator expression rvalue :
  doMatchEqual (withOperator operator expression) rvalue
  = doMatchEqual expression rvalue.
Proof. reflexivity. Qed.

Lemma doMatchIn_withOperator operator expression rvalue :
  doMatchIn (withOperator operator expression) rvalue
  = doMatchIn expression rvalue.
Proof. reflexivity. Qed.

Lemma doMatchIsEmpty_withOperator operator expression rvalue :
  doMatchIsEmpty (withOperator operator expression) rvalue
  = doMatchIsEmpty expression rvalue.
Proof. reflexivity. Qed.

Lemma negated_bind (outcome : result) :
  bind outcome
    (fun x => match x with
              | (result, err) =>
                  match err with
                  | None => Return (negb result, None)
                  | Some _ => Return (false, err)
                  end
              end)
  = negated outcome.
Proof. destruct outcome as [[b [err|]]|]; reflexivity. Qed.

(** C9 - at the end of the selector, MatchNotEqual returns the negation of
    what MatchEqual returns when MatchEqual succeeds, and false with the
    same error when MatchEqual fails; likewise MatchNotIn with MatchIn and
    MatchIsNotEmpty with MatchIsEmpty. *)
Theorem negated_operators expression depth rvalue fields :
  List.length (Selector expression) <= depth ->
  let eval := fun operator =>
    evaluateMatchExpressionRecurse (withOperator operator expression)
      depth rvalue fields in
  eval MatchNotEqual = negated (eval MatchEqual)
  /\ eval MatchNotIn = negated (eval MatchIn)
  /\ eval MatchIsNotEmpty = negated (eval MatchIsEmpty).
Proof.
  intros Hend eval. unfold eval.
  rewrite !evaluateMatchExpressionRecurse_end by exact Hend.
  unfold matchOperation. cbn [withOperator Operator].
  rewrite !doMatchEqual_withOperator, !doMatchIn_withOperator,
    !doMatchIsEmpty_withOperator.
  repeat split; apply negated_bind.
Qed.

Lemma negated_operators_witness :
  let expression :=
    {| Selector := ["tags"]; Operator := MatchIn;
       Value := Some {| Raw := "green"; Converted := Nil |} |} in
  let tags :=
    VList false (TBasic reflect.String)
      [VBasic (string_ "red"); VBasic (string_ "green")] in
  evaluateMatchExpressionRecurse (withOperator MatchNotIn expression) 1 tags None
  = negated
      (evaluateMatchExpressionRecurse (withOperator MatchIn expression) 1 tags None).
Proof.
  cbv zeta.
  refine (proj1 (proj2 (negated_operators _ 1 _ None _))).
  simpl. lia.
Defined.

(** ** Evaluation of the connectives *)

(** C3 - short circuit.  When the left operand of an And yields false or an
    error, that result is the result of the And whatever the right operand
    is (the right operand is not evaluated: it may even be one whose
    evaluation panics); otherwise the result is that of the right operand.
    Dually for Or with true in place of false. *)
Theorem short_circuit Left Right datum fields :
  let onLeft := evaluate Left datum fields in
  let onRight := evaluate Right datum fields in
  let onAnd := evaluate (BinaryExpr Left BinaryOpAnd Right) datum fields in
  let onOr := evaluate (BinaryExpr Left BinaryOpOr Right) datum fields in
  (forall result err, onLeft = Return (result, err) ->
     result = false \/ err <> None -> onAnd = Return (result, err))
  /\ (onLeft = Return (true, None) -> onAnd = onRight)
  /\ (forall result err, onLeft = Return (result, err) ->
        result = true \/ err <> None -> onOr = Return (result, err))
  /\ (onLeft = Return (false, None) -> onOr = onRight).
Proof.
  cbv zeta. cbn [evaluate].
  repeat split.
  - intros result err -> Hshort. cbn [bind].
    destruct err as [err|]; [reflexivity|].
    destruct Hshort as [->|Herr]; [reflexivity | now destruct Herr].
  - intros ->. reflexivity.
  - intros result err -> Hshort. cbn [bind].
    destruct err as [err|]; [reflexivity|].
    destruct Hshort as [->|Herr]; [reflexivity | now destruct Herr].
  - intros ->. reflexivity.
Qed.

Lemma short_circuit_witness :
  let datum := VStruct [exported "Items" (VList false itemType [item (-1)])] in
  evaluate unconfigured datum itemsSchema = Panic
  /\ evaluate (BinaryExpr (Match probeExpression) BinaryOpAnd unconfigured)
       datum itemsSchema
     = Return (false, Some (ErrCustom "negative probe")).
Proof.
  cbv zeta. split; [vm_compute; reflexivity|].
  refine (proj1 (short_circuit (Match probeExpression) unconfigured _ itemsSchema)
            false (Some (ErrCustom "negative probe")) _ _).
  - vm_compute. reflexivity.
  - left. reflexivity.
Defined.

(** C6 - Not.  When the operand evaluates without error the result is the
    negation of the operand's result.  When the operand evaluates to an
    error that error is returned.  Negation yields an answer only from an
    answer: a result of Not without error is the negation of a result the
    operand gave without error, and a result of Not with an error comes
    from the operand's failure with that error, not from an answer of
    the operand. *)
Theorem not_negates Operand datum fields :
  let onOperand := evaluate Operand datum fields in
  let onNot := evaluate (UnaryExpr UnaryOpNot Operand) datum fields in
  (forall result, onOperand = Return (result, None) ->
     onNot = Return (negb result, None))
  /\ (forall result err, onOperand = Return (result, Some err) ->
        onNot = Return (negb result, Some err))
  /\ (forall answer, onNot = Return (answer, None) ->
        onOperand = Return (negb answer, None))
  /\ (forall b err, onNot = Return (b, Some err) ->
        onOperand = Return (negb b, Some err)
        /\ forall answer, onOperand <> Return (answer, None)).
Proof.
  cbv zeta. cbn [evaluate]. split; [|split; [|split]].
  - intros result ->. reflexivity.
  - intros result err ->. reflexivity.
  - intros answer. destruct (evaluate Operand datum fields) as [[b [err|]]|];
      cbn [bind]; intros [=]; subst. now rewrite negb_involutive.
  - intros b err. destruct (evaluate Operand datum fields) as [[b' [err'|]]|];
      cbn [bind]; intros [=]; subst.
    rewrite negb_involutive. split; [reflexivity | discriminate].
Qed.

Lemma not_negates_witness :
  let datum := VStruct [exported "Items" (VList false itemType [item 3])] in
  evaluate (UnaryExpr UnaryOpNot (Match probeExpression)) datum itemsSchema
  = Return (false, None).
Proof.
  cbv zeta.
  refine (proj1 (not_negates (Match probeExpression) _ itemsSchema) true _).
  vm_compute. reflexivity.
Defined.

(** C7 - De Morgan.  Not(And(a, b)) and Or(Not(a), Not(b)) have the same
    outcome (the same boolean and error, or both panic) on every datum,
    and so have Not(Or(a, b)) and And(Not(a), Not(b)). *)
Theorem de_morgan a b datum fields :
  evaluate (UnaryExpr UnaryOpNot (BinaryExpr a BinaryOpAnd b)) datum fields
  = evaluate (BinaryExpr (UnaryExpr UnaryOpNot a) BinaryOpOr
                (UnaryExpr UnaryOpNot b)) datum fields
  /\ evaluate (UnaryExpr UnaryOpNot (BinaryExpr a BinaryOpOr b)) datum fields
     = evaluate (BinaryExpr (UnaryExpr UnaryOpNot a) BinaryOpAnd
                   (UnaryExpr UnaryOpNot b)) datum fields.
Proof.
  cbn [evaluate].
  destruct (evaluate a datum fields) as [[ra [ea|]]|]; cbn [bind notNil orb];
    [split; reflexivity | | split; reflexivity].
  destruct ra; cbn [negb orb]; split; reflexivity.
Qed.

(** ** Schema derivation *)

(** *** Names of struct fields *)

Lemma structFieldNames_unexported (field : reflect.StructField GoType) :
  reflect.PkgPath field <> "" -> structFieldNames field = None.
Proof.
  intros Hpkg. unfold structFieldNames.
  apply String.eqb_neq in Hpkg. now rewrite Hpkg.
Qed.

Lemma structFieldNames_untagged (field : reflect.StructField GoType) :
  reflect.PkgPath field = "" -> reflect.Tag field = "" ->
  structFieldNames field = Some [reflect.Name field].
Proof.
  intros Hpkg Htag. unfold structFieldNames. now rewrite Hpkg, Htag.
Qed.

Lemma structFieldNames_suppressed (field : reflect.StructField GoType) :
  reflect.Tag field = "-" -> structFieldNames field = None.
Proof.
  intros Htag. unfold structFieldNames. rewrite Htag.
  now destruct (String.eqb (reflect.PkgPath field) "").
Qed.

Lemma structFieldNames_tagged (field : reflect.StructField GoType) first aliases :
  reflect.PkgPath field = "" -> reflect.Tag field <> "" ->
  strings_Split (reflect.Tag field) "," = first :: aliases -> first <> "-" ->
  structFieldNames field = Some (first :: aliases).
Proof.
  intros Hpkg Htag Hsplit Hfirst. unfold structFieldNames.
  apply String.eqb_neq in Htag, Hfirst.
  now rewrite Hpkg, Htag, Hsplit, Hfirst.
Qed.

Lemma linkNames_lookup cfg (fieldNames : list string)
    (fieldConfigs : gmap string FieldConfiguration) (name : string) :
  linkNames cfg fieldNames fieldConfigs !! name
  = if in_dec String.string_dec name fieldNames then Some cfg
    else fieldConfigs !! name.
Proof.
  unfold linkNames. revert fieldConfigs.
  induction fieldNames as [|first rest IH]; intros fieldConfigs; [reflexivity|].
  cbn [fold_left]. rewrite IH.
  destruct (in_dec String.string_dec name rest) as [Hrest|Hrest];
    destruct (in_dec String.string_dec name (first :: rest)) as [Hin|Hin];
    try reflexivity.
  - exfalso. apply Hin. now right.
  - destruct Hin as [->|Hin]; [apply lookup_insert_eq | contradiction].
  - apply lookup_insert_ne. intros ->. apply Hin. now left.
Qed.

(** The step of the loop for a field that is kept: the field's
    configuration, with the physical name attached, is bound under every
    one of its names before the loop goes on. *)
Lemma structFieldsLoop_bind internal field rest fieldConfigs fieldNames cfg :
  structFieldNames field = Some fieldNames ->
  internal (derefType (reflect.Content field)) = Return (Some cfg, None) ->
  let bound := setStructFieldName cfg (reflect.Name field) in
  structFieldsLoop internal (field :: rest) fieldConfigs
  = structFieldsLoop internal rest (linkNames bound fieldNames fieldConfigs)
  /\ forall name, In name fieldNames ->
       linkNames bound fieldNames fieldConfigs !! name = Some bound.
Proof.
  intros Hnames Hcfg bound. split.
  - cbn [structFieldsLoop]. now rewrite Hnames, Hcfg.
  - intros name Hin. rewrite linkNames_lookup.
    now destruct (in_dec String.string_dec name fieldNames).
Qed.

(** The step of the loop for a field that is left out. *)
Lemma structFieldsLoop_skip internal field rest fieldConfigs :
  structFieldNames field = None ->
  structFieldsLoop internal (field :: rest) fieldConfigs
  = structFieldsLoop internal rest fieldConfigs.
Proof. intros Hnames. cbn [structFieldsLoop]. now rewrite Hnames. Qed.

(** The step of the loop for a field that is kept and whose type derives
    to the nil configuration. *)
Lemma structFieldsLoop_nil internal field rest fieldConfigs fieldNames :
  structFieldNames field = Some fieldNames ->
  internal (derefType (reflect.Content field)) = Return (None, None) ->
  structFieldsLoop internal (field :: rest) fieldConfigs = Panic.
Proof.
  intros Hnames Hcfg. cbn [structFieldsLoop]. now rewrite Hnames, Hcfg.
Qed.

(** A kind without a coercion function, as the type of a value that has
    no methods, derives to the nil configuration without error. *)
Lemma generateFieldConfigurationInternal_unsupported (kind : reflect.Kind) :
  primitiveCoercionFns kind = None ->
  generateFieldConfigurationInternal (TBasic kind) = Return (None, None).
Proof.
  intros Hkind. cbn [generateFieldConfigurationInternal Implements TypeKind].
  now rewrite Hkind.
Qed.

(** C4 - names of record fields, at the input where the code departs from
    the claim: an unexported field is left out although it carries an
    annotation, here [secret string `bexpr:"secret"`] in package main. *)
Theorem annotated_unexported_field_omitted :
  let secret :=
    {| reflect.Name := "secret"; reflect.PkgPath := "main";
       reflect.Tag := "secret"; reflect.Content := TBasic reflect.String |} in
  structFieldNames secret = None
  /\ GenerateFieldConfigurations (Some (TStruct [secret])) = Return (Some ∅, None).
Proof. cbv zeta. split; vm_compute; reflexivity. Qed.

(** C5 - unsupported kinds, at the input where the code departs from the
    claim: a channel type derives to the nil configuration without error,
    and deriving the schema of [struct { C chan int }] panics at the
    assignment of the physical name through that nil pointer. *)
Theorem unsupported_field_kind_panics :
  generateFieldConfigurationInternal (TBasic reflect.Chan) = Return (None, None)
  /\ GenerateFieldConfigurations
       (Some (TStruct [exported "C" (TBasic reflect.Chan)])) = Panic.
Proof. split; vm_compute; reflexivity. Qed.

(** *** The top-level type *)

(** C8 - the top-level type.  Derivation returns without error only for a
    self-describing value, a struct, or a map whose key kind is String
    (pointers stripped).  For every other type it returns an error and no
    configurations: the error about maps with keys that are not strings
    for a map, the error about an invalid top level type otherwise. *)
Theorem top_level_type (type : GoType) :
  let rtype := derefType type in
  let derived := generateFieldConfigurationsAndType (Some type) in
  (forall fields rt, derived = Return (fields, rt, None) ->
     selfDescribing type \/ isRecord rtype \/ isStringKeyedMap rtype)
  /\ (~ selfDescribing type -> isMap rtype -> ~ isStringKeyedMap rtype ->
      derived = Return (None, rtype, Some ErrMapKeysNotStrings))
  /\ (~ selfDescribing type -> ~ isRecord rtype -> ~ isMap rtype ->
      derived = Return (None, rtype, Some ErrInvalidTopLevelType)).
Proof.
  cbv zeta. unfold selfDescribing, isRecord, isMap, isStringKeyedMap.
  unfold generateFieldConfigurationsAndType.
  destruct (Implements type) as [configs|] eqn:Himpl.
  { split; [intros; left; discriminate|]. split; intros Hself; now destruct Hself. }
  destruct (underlyingType (derefType type)) as [k|e|key elem|e|n e|fs|c u] eqn:Hty.
  1, 2, 4, 5, 7:
    (split; [intros fields rt [=]
            | split; [intros _ (key' & elem' & [=]) _ | intros _ _ _; reflexivity]]).
  - (* a map *)
    destruct (decide (TypeKind key = reflect.String)) as [Hkey|Hkey].
    + split; [intros; right; right; eauto|].
      split; [intros _ _ Hnot; exfalso; apply Hnot; eauto|].
      intros _ _ Hmap. exfalso. apply Hmap. eauto.
    + rewrite bool_decide_eq_false_2 by assumption. cbn [negb].
      split; [intros fields rt [=]|].
      split; [reflexivity|].
      intros _ _ Hmap. exfalso. apply Hmap. eauto.
  - (* a struct *)
    split; [intros; right; left; eauto|].
    split; [intros _ (key' & elem' & [=]) _|].
    intros _ Hrecord. exfalso. apply Hrecord. eauto.
Qed.

Lemma top_level_type_witness :
  generateFieldConfigurationsAndType
    (Some (TPtr (TMap (TBasic reflect.Int) (TBasic reflect.String))))
  = Return (None, TMap (TBasic reflect.Int) (TBasic reflect.String),
            Some ErrMapKeysNotStrings)
  /\ generateFieldConfigurationsAndType (Some (TSlice (TBasic reflect.String)))
     = Return (None, TSlice (TBasic reflect.String), Some ErrInvalidTopLevelType).
Proof.
  split.
  - refine (proj1 (proj2 (top_level_type
                            (TPtr (TMap (TBasic reflect.Int) (TBasic reflect.String)))))
              _ _ _).
    + intros Hself. apply Hself. reflexivity.
    + exists (TBasic reflect.Int), (TBasic reflect.String). reflexivity.
    + intros (key & elem & Hmap & Hkey). simpl in Hmap.
      injection Hmap as <- <-. discriminate Hkey.
  - refine (proj2 (proj2 (top_level_type (TSlice (TBasic reflect.String)))) _ _ _).
    + intros Hself. apply Hself. reflexivity.
    + intros (fields & Hrecord). discriminate Hrecord.
    + intros (key & elem & Hmap). discriminate Hmap.
Defined.

(** C10 - a top-level map with String keys whose value type derives to
    the nil configuration (a value of unsupported kind): derivation
    returns the nil map of configurations and the nil error, so that no
    name is selectable. *)
Theorem top_level_map_of_unsupported (type key elem : GoType) :
  Implements type = None ->
  underlyingType (derefType type) = TMap key elem ->
  TypeKind key = reflect.String ->
  generateFieldConfigurationInternal (derefType elem) = Return (None, None) ->
  generateFieldConfigurationsAndType (Some type) = Return (None, derefType type, None)
  /\ GenerateFieldConfigurations (Some type) = Return (None, None)
  /\ forall fields err name,
       GenerateFieldConfigurations (Some type) = Return (fields, err) ->
       index fields name = None.
Proof.
  intros Himpl Hmap Hkey Hnil.
  assert (Hderived : generateFieldConfigurationsAndType (Some type)
                     = Return (None, derefType type, None)).
  { unfold generateFieldConfigurationsAndType. rewrite Himpl, Hmap.
    rewrite bool_decide_eq_true_2 by assumption. cbn [negb].
    now rewrite Hnil. }
  assert (Hpublic : GenerateFieldConfigurations (Some type) = Return (None, None)).
  { unfold GenerateFieldConfigurations. now rewrite Hderived. }
  split; [assumption|]. split; [assumption|].
  intros fields err name. rewrite Hpublic. intros [= <- _]. reflexivity.
Qed.

Lemma top_level_map_of_unsupported_witness :
  let type := TMap (TBasic reflect.String) (TPtr (TBasic reflect.Chan)) in
  generateFieldConfigurationsAndType (Some type) = Return (None, type, None)
  /\ GenerateFieldConfigurations (Some type) = Return (None, None).
Proof.
  cbv zeta.
  pose proof (top_level_map_of_unsupported
                (TMap (TBasic reflect.String) (TPtr (TBasic reflect.Chan)))
                (TBasic reflect.String) (TPtr (TBasic reflect.Chan))
                eq_refl eq_refl eq_refl
                (generateFieldConfigurationInternal_unsupported reflect.Chan eq_refl))
    as (Hderived & Hpublic & _).
  split; assumption.
Defined.

(** * Further properties of the evaluator *)

(** ** Types and values without their methods *)

Lemma ValueKind_underlyingValue (v : GoValue) :
  ValueKind (underlyingValue v) = ValueKind v.
Proof. induction v; try reflexivity. exact IHv. Qed.

Lemma TypeKind_underlyingType (rtype : GoType) :
  TypeKind (underlyingType rtype) = TypeKind rtype.
Proof. induction rtype; try reflexivity. exact IHrtype. Qed.

(** X1 - derefType strips every level of pointer: its result is never of
    kind Ptr, it leaves alone a type that is not of kind Ptr, and so
    applying it twice is applying it once. *)
Theorem derefType_strips_pointers (rtype : GoType) :
  wellKinded rtype ->
  TypeKind (derefType rtype) <> reflect.Ptr
  /\ (TypeKind rtype <> reflect.Ptr -> derefType rtype = rtype)
  /\ derefType (derefType rtype) = derefType rtype.
Proof.
  intros Hwell.
  assert (Hfix : forall t, TypeKind t <> reflect.Ptr -> derefType t = t).
  { intros t Ht. destruct t; cbn [derefType TypeKind] in *; try reflexivity.
    - now destruct Ht.
    - destruct (TypeKind t); try reflexivity. now destruct Ht. }
  assert (Hkind : TypeKind (derefType rtype) <> reflect.Ptr).
  { induction rtype; cbn [derefType TypeKind wellKinded] in *; try discriminate.
    - intros ->. discriminate Hwell.
    - now apply IHrtype.
    - destruct (TypeKind rtype) eqn:Hk; cbn [TypeKind]; rewrite ?Hk;
        try discriminate. now apply IHrtype. }
  split; [exact Hkind|]. split; [apply Hfix|]. apply Hfix, Hkind.
Qed.

Lemma derefType_strips_pointers_witness :
  derefType (derefType (TPtr (TPtr (TBasic reflect.Int))))
  = derefType (TPtr (TPtr (TBasic reflect.Int))).
Proof.
  apply (proj2 (proj2 (derefType_strips_pointers
                         (TPtr (TPtr (TBasic reflect.Int))) eq_refl))).
Defined.

(** ** The equality functions *)

(** On two primitives of one type, the equality function of their kind is
    Go's [==]. *)
Lemma call_primitiveEqualityFns (q p : Primitive) :
  PrimitiveKind q = PrimitiveKind p ->
  call (primitiveEqualityFns (PrimitiveKind p)) (Box q) (Box p)
  = Return (Primitive_eqb q p).
Proof. destruct q, p; intros [=]; reflexivity. Qed.

(** On primitives of two types it panics, whichever function is called. *)
Lemma call_primitiveEqualityFns_mismatch (kind : reflect.Kind) (q p : Primitive) :
  PrimitiveKind q <> PrimitiveKind p ->
  call (primitiveEqualityFns kind) (Box q) (Box p) = Panic.
Proof.
  intros Hkind. destruct kind; try reflexivity;
    destruct q; try reflexivity; destruct p; try reflexivity;
    now destruct Hkind.
Qed.

(** It panics when either side is not a primitive. *)
Lemma call_primitiveEqualityFns_first (kind : reflect.Kind) (first second : interface) :
  (forall q, first <> Box q) ->
  call (primitiveEqualityFns kind) first second = Panic.
Proof.
  intros Hfirst. destruct kind; try reflexivity;
    (destruct first as [|q|k]; [reflexivity | now destruct (Hfirst q) | reflexivity]).
Qed.

Lemma call_primitiveEqualityFns_second (kind : reflect.Kind) (first second : interface) :
  (forall p, second <> Box p) ->
  call (primitiveEqualityFns kind) first second = Panic.
Proof.
  intros Hsecond. destruct kind; try reflexivity;
    (destruct first as [|[] |k]; try reflexivity;
     destruct second as [|p|k]; try reflexivity; now destruct (Hsecond p)).
Qed.

(** X2 - doMatchEqual on a primitive value compares it with the match
    value by Go's [==] when both have the same type, and panics when
    their types differ (as for an int field compared with a value that
    was left as a raw string). *)
Theorem doMatchEqual_primitive expression (p q : Primitive) :
  getMatchExprValue expression = Box q ->
  (PrimitiveKind q = PrimitiveKind p ->
   doMatchEqual expression (VBasic p) = Return (Primitive_eqb q p, None))
  /\ (PrimitiveKind q <> PrimitiveKind p ->
      doMatchEqual expression (VBasic p) = Panic).
Proof.
  intros Hvalue. unfold doMatchEqual. rewrite Hvalue.
  cbn [Interface bind ValueKind]. split; intros Hkind.
  - now rewrite call_primitiveEqualityFns.
  - now rewrite call_primitiveEqualityFns_mismatch.
Qed.

Lemma doMatchEqual_primitive_witness :
  doMatchEqual
    {| Selector := ["Age"]; Operator := MatchEqual;
       Value := Some {| Raw := "30"; Converted := Box (int_ 30) |} |}
    (VBasic (int_ 30)) = Return (true, None)
  /\ doMatchEqual
       {| Selector := ["Age"]; Operator := MatchEqual;
          Value := Some {| Raw := "30"; Converted := Nil |} |}
       (VBasic (int_ 30)) = Panic.
Proof.
  split.
  - apply (proj1 (doMatchEqual_primitive
                    {| Selector := ["Age"]; Operator := MatchEqual;
                       Value := Some {| Raw := "30"; Converted := Box (int_ 30) |} |}
                    (int_ 30) (int_ 30) eq_refl)).
    reflexivity.
  - apply (proj2 (doMatchEqual_primitive
                    {| Selector := ["Age"]; Operator := MatchEqual;
                       Value := Some {| Raw := "30"; Converted := Nil |} |}
                    (int_ 30) (string_ "30") eq_refl)).
    discriminate.
Defined.

(** X3 - doMatchEqual returns only on a primitive value and a match value
    of the same primitive type; it never returns an error.  On every
    other value (zero, pointer, struct, slice, map, a value of a named
    type) and on a nil match value it panics. *)
Theorem doMatchEqual_returns expression value b err :
  doMatchEqual expression value = Return (b, err) ->
  err = None
  /\ exists p q,
       value = VBasic p /\ getMatchExprValue expression = Box q
       /\ PrimitiveKind q = PrimitiveKind p /\ b = Primitive_eqb q p.
Proof.
  unfold doMatchEqual. intros Hreturn.
  destruct value as [|p|elem|fs|array et items|kt entries|n|k|m u];
    cbn [Interface bind] in Hreturn; try discriminate Hreturn;
    try (rewrite call_primitiveEqualityFns_second in Hreturn by discriminate;
         discriminate Hreturn).
  destruct (getMatchExprValue expression) as [|q|k] eqn:Hvalue;
    try (rewrite call_primitiveEqualityFns_first in Hreturn by discriminate;
         discriminate Hreturn).
  cbn [ValueKind] in Hreturn.
  destruct (decide (PrimitiveKind q = PrimitiveKind p)) as [Hkind|Hkind].
  - rewrite call_primitiveEqualityFns in Hreturn by assumption.
    injection Hreturn as <- <-. split; [reflexivity|]. now exists p, q.
  - rewrite call_primitiveEqualityFns_mismatch in Hreturn by assumption.
    discriminate Hreturn.
Qed.

Lemma doMatchEqual_returns_witness :
  exists p q,
    VBasic (string_ "prod") = VBasic p
    /\ getMatchExprValue
         {| Selector := ["env"]; Operator := MatchEqual;
            Value := Some {| Raw := "prod"; Converted := Nil |} |} = Box q
    /\ PrimitiveKind q = PrimitiveKind p /\ true = Primitive_eqb q p.
Proof.
  exact (proj2 (doMatchEqual_returns
                  {| Selector := ["env"]; Operator := MatchEqual;
                     Value := Some {| Raw := "prod"; Converted := Nil |} |}
                  (VBasic (string_ "prod")) true None eq_refl)).
Defined.

(** ** MatchIn at the end of the selector *)

Lemma prefix_append (substr s : string) :
  String.prefix substr s = true <-> exists post, s = String.append substr post.
Proof.
  revert s. induction substr as [|a substr IH]; intros s.
  - destruct s; (split; [intros _; eexists; reflexivity | reflexivity]).
  - destruct s as [|b s]; cbn [String.prefix String.append].
    + split; [discriminate | intros [post [=]]].
    + destruct (ascii_dec a b) as [->|Hne].
      * rewrite IH. split; intros [post Hpost]; exists post;
          [now rewrite Hpost | now injection Hpost].
      * split; [discriminate | intros [post [= Hab _]]; now destruct Hne].
Qed.

(** [strings_Contains] is the substring test. *)
Lemma strings_Contains_spec (s substr : string) :
  strings_Contains s substr = true
  <-> exists pre post, s = String.append pre (String.append substr post).
Proof.
  split.
  - induction s as [|c s IH]; cbn [strings_Contains];
      rewrite orb_true_iff, prefix_append.
    + intros [[post Hpost]|[=]]. now exists "", post.
    + intros [[post Hpost]|Hrest]; [now exists "", post|].
      destruct (IH Hrest) as (pre & post & ->). now exists (String c pre), post.
  - intros (pre & post & ->). induction pre as [|c pre IH].
    + cbn [String.append]. destruct (String.append substr post) eqn:Hs;
        cbn [strings_Contains]; apply orb_true_iff; left;
        apply prefix_append; exists post; congruence.
    + cbn [String.append strings_Contains]. apply orb_true_iff. now right.
Qed.

Lemma lookupEntry_IsValid (q : Primitive) (entries : list (Primitive * GoValue)) :
  Forall (fun entry => IsValid (snd entry) = true) entries ->
  IsValid (lookupEntry q VZero (fun elem => elem) entries) = true
  <-> exists k elem, In (k, elem) entries /\ Primitive_eqb k q = true.
Proof.
  induction 1 as [|[k elem] rest Hvalid _ IH]; cbn [lookupEntry].
  - split; [discriminate | intros (k & elem & [] & _)].
  - destruct (Primitive_eqb k q) eqn:Heq.
    + split; [intros _; exists k, elem; split; [now left | assumption] | intros _; exact Hvalid].
    + rewrite IH. split; intros (k' & elem' & Hin & Hk').
      * exists k', elem'. split; [now right | assumption].
      * destruct Hin as [[= <- <-]|Hin]; [congruence|]. now exists k', elem'.
Qed.

(** X4 - MatchIn on a map is the test for the key: on a map whose key
    type is the type of the match value it is true exactly when some
    entry has a key equal to the match value, without error; on a map
    whose key type is another type, and not the empty interface, or
    with no match value, [MapIndex] panics. *)
Theorem doMatchIn_map expression value keyType entries (q : Primitive) :
  underlyingValue value = VMap keyType entries ->
  Forall (fun entry => IsValid (snd entry) = true) entries ->
  (getMatchExprValue expression = Box q ->
   keyType = TBasic (PrimitiveKind q) ->
   exists b, doMatchIn expression value = Return (b, None)
     /\ (b = true <-> exists k elem, In (k, elem) entries /\ Primitive_eqb k q = true))
  /\ (getMatchExprValue expression = Box q ->
      keyType <> TBasic (PrimitiveKind q) ->
      keyType <> TBasic reflect.Interface ->
      doMatchIn expression value = Panic)
  /\ (getMatchExprValue expression = Nil -> doMatchIn expression value = Panic).
Proof.
  intros Hmap Hvalid. unfold doMatchIn. rewrite Hmap.
  split; [|split].
  - intros -> ->. unfold MapIndex, assignableTo. cbn [ValueOf].
    rewrite bool_decide_eq_true_2 by reflexivity. cbn [orb bind].
    eexists. split; [reflexivity|]. now apply lookupEntry_IsValid.
  - intros -> Hkind Hiface. unfold MapIndex, assignableTo. cbn [ValueOf].
    destruct keyType as [kind| | | | | |]; try reflexivity.
    rewrite !bool_decide_eq_false_2; [reflexivity | |];
      intros ->; [now apply Hiface | now apply Hkind].
  - intros ->. reflexivity.
Qed.

Lemma doMatchIn_map_witness :
  doMatchIn
    {| Selector := ["meta"]; Operator := MatchIn;
       Value := Some {| Raw := "env"; Converted := Nil |} |}
    (VMap (TBasic reflect.Int) [(int_ 1, VBasic (string_ "prod"))]) = Panic.
Proof.
  refine (proj1 (proj2 (doMatchIn_map
           {| Selector := ["meta"]; Operator := MatchIn;
              Value := Some {| Raw := "env"; Converted := Nil |} |}
           (VMap (TBasic reflect.Int) [(int_ 1, VBasic (string_ "prod"))])
           (TBasic reflect.Int) [(int_ 1, VBasic (string_ "prod"))]
           (string_ "env") eq_refl _)) _ _ _);
    [repeat constructor | reflexivity | discriminate | discriminate].
Defined.

(** The loop over the items, when every item is (a pointer to) a
    primitive of the type of the match value. *)
Lemma doMatchInItems_primitives (q : Primitive) (items : list GoValue) :
  Forall (fun item => exists p, Indirect item = VBasic p
                                /\ PrimitiveKind p = PrimitiveKind q) items ->
  exists b,
    doMatchInItems (primitiveEqualityFns (PrimitiveKind q)) (Box q) items
    = Return (b, None)
    /\ (b = true <->
        exists item p, In item items /\ Indirect item = VBasic p
                       /\ Primitive_eqb q p = true).
Proof.
  induction 1 as [|item rest (p & Hitem & Hkind) _ (b & Hrest & Hb)];
    cbn [doMatchInItems].
  - exists false. split; [reflexivity|].
    split; [discriminate | intros (item & p & [] & _)].
  - rewrite Hitem. cbn [Interface bind]. rewrite <- Hkind.
    rewrite call_primitiveEqualityFns by congruence. cbn [bind].
    destruct (Primitive_eqb q p) eqn:Heq.
    + exists true. split; [reflexivity|]. split; [|reflexivity].
      intros _. exists item, p. repeat split; [now left | assumption | assumption].
    + rewrite Hkind. exists b. split; [exact Hrest|]. rewrite Hb.
      split; intros (item' & p' & Hin & Hitem' & Heq').
      * exists item', p'. repeat split; [now right | assumption | assumption].
      * destruct Hin as [<-|Hin]; [|now exists item', p'].
        rewrite Hitem in Hitem'. injection Hitem' as <-. congruence.
Qed.

(** X5 - MatchIn on a slice or array whose items are (pointers to)
    primitives of the element type is true exactly when some item equals
    the match value, without error; on the empty slice it is false
    whatever the element type. *)
Theorem doMatchIn_list expression value array elemType items (q : Primitive) :
  underlyingValue value = VList array elemType items ->
  getMatchExprValue expression = Box q ->
  (items = [] -> doMatchIn expression value = Return (false, None))
  /\ (TypeKind (derefType elemType) = PrimitiveKind q ->
      Forall (fun item => exists p, Indirect item = VBasic p
                                    /\ PrimitiveKind p = PrimitiveKind q) items ->
      exists b, doMatchIn expression value = Return (b, None)
        /\ (b = true <->
            exists item p, In item items /\ Indirect item = VBasic p
                           /\ Primitive_eqb q p = true)).
Proof.
  intros Hlist Hvalue. unfold doMatchIn. rewrite Hlist, Hvalue. split.
  - intros ->. reflexivity.
  - intros -> Hitems. now apply doMatchInItems_primitives.
Qed.

Lemma doMatchIn_list_witness :
  exists b,
    doMatchIn
      {| Selector := ["tags"]; Operator := MatchIn;
         Value := Some {| Raw := "green"; Converted := Nil |} |}
      (VList false (TPtr (TBasic reflect.String))
         [VPtr (TBasic reflect.String) (VBasic (string_ "red")); VPtr (TBasic reflect.String) (VBasic (string_ "green"))])
    = Return (b, None)
    /\ (b = true <->
        exists item p,
          In item [VPtr (TBasic reflect.String) (VBasic (string_ "red")); VPtr (TBasic reflect.String) (VBasic (string_ "green"))]
          /\ Indirect item = VBasic p /\ Primitive_eqb (string_ "green") p = true).
Proof.
  apply (proj2 (doMatchIn_list
           {| Selector := ["tags"]; Operator := MatchIn;
              Value := Some {| Raw := "green"; Converted := Nil |} |}
           (VList false (TPtr (TBasic reflect.String))
              [VPtr (TBasic reflect.String) (VBasic (string_ "red")); VPtr (TBasic reflect.String) (VBasic (string_ "green"))])
           false (TPtr (TBasic reflect.String))
           [VPtr (TBasic reflect.String) (VBasic (string_ "red")); VPtr (TBasic reflect.String) (VBasic (string_ "green"))]
           (string_ "green") eq_refl eq_refl)).
  - reflexivity.
  - repeat constructor; eexists; split; reflexivity.
Defined.

(** X6 - MatchIn on a string is substring containment: with a string
    match value it is true exactly when the match value occurs in the
    string, without error; with a match value that is not a string it
    panics. *)
Theorem doMatchIn_string expression value (s : string) :
  underlyingValue value = VBasic (string_ s) ->
  (forall substr, getMatchExprValue expression = Box (string_ substr) ->
     exists b, doMatchIn expression value = Return (b, None)
       /\ (b = true <->
           exists pre post, s = String.append pre (String.append substr post)))
  /\ ((forall substr, getMatchExprValue expression <> Box (string_ substr)) ->
      doMatchIn expression value = Panic).
Proof.
  intros Hstring. unfold doMatchIn. rewrite Hstring. split.
  - intros substr ->. eexists. split; [reflexivity|]. apply strings_Contains_spec.
  - intros Hvalue.
    destruct (getMatchExprValue expression) as [|q|k]; try reflexivity.
    destruct q as [| | | | | | | | | | | | |substr]; try reflexivity.
    now destruct (Hvalue substr).
Qed.

Lemma doMatchIn_string_witness :
  exists b,
    doMatchIn
      {| Selector := ["name"]; Operator := MatchIn;
         Value := Some {| Raw := "lic"; Converted := Nil |} |}
      (VBasic (string_ "alice")) = Return (b, None)
    /\ (b = true <->
        exists pre post, "alice" = String.append pre (String.append "lic" post)).
Proof.
  apply (proj1 (doMatchIn_string
           {| Selector := ["name"]; Operator := MatchIn;
              Value := Some {| Raw := "lic"; Converted := Nil |} |}
           (VBasic (string_ "alice")) "alice" eq_refl) "lic" eq_refl).
Defined.

Lemma doMatchInItems_no_error eqFn matchValue (items : list GoValue) b err :
  doMatchInItems eqFn matchValue items = Return (b, err) -> err = None.
Proof.
  induction items as [|item rest IH]; cbn [doMatchInItems].
  - now intros [= _ <-].
  - destruct (Interface (Indirect item)) as [second|]; cbn [bind]; [|discriminate].
    destruct (call eqFn matchValue second) as [[|]|]; cbn [bind];
      [now intros [= _ <-] | exact IH | discriminate].
Qed.

(** X7 - the only error of doMatchIn is the one about the kind of the
    value, and it is returned, with false, exactly for the values that
    are neither a map, nor a slice or array, nor a string; on those
    doMatchIn never panics. *)
Theorem doMatchIn_error expression value :
  (container value = false ->
   doMatchIn expression value
   = Return (false, Some (ErrInContains (ValueKind value) (Selector expression))))
  /\ (forall b err, doMatchIn expression value = Return (b, Some err) ->
        container value = false).
Proof.
  unfold container, doMatchIn. split.
  - destruct (underlyingValue value) as [|[]| | | | | | |]; try reflexivity;
      discriminate.
  - intros b err.
    destruct (underlyingValue value) as [|p|elem|fs|array et items|kt entries|n|k|m u];
      try reflexivity.
    + destruct p; try reflexivity.
      destruct (getMatchExprValue expression) as [|[]|]; discriminate.
    + intros Hitems. now apply doMatchInItems_no_error in Hitems.
    + destruct (MapIndex kt entries (ValueOf (getMatchExprValue expression)));
        discriminate.
Qed.

Lemma doMatchIn_error_witness :
  doMatchIn
    {| Selector := ["Age"]; Operator := MatchIn;
       Value := Some {| Raw := "3"; Converted := Box (int_ 3) |} |}
    (VBasic (int_ 30))
  = Return (false, Some (ErrInContains reflect.Int ["Age"])).
Proof.
  apply (proj1 (doMatchIn_error
                  {| Selector := ["Age"]; Operator := MatchIn;
                     Value := Some {| Raw := "3"; Converted := Box (int_ 3) |} |}
                  (VBasic (int_ 30)))).
  reflexivity.
Defined.

(** ** MatchIsEmpty at the end of the selector *)

(** X8 - doMatchIsEmpty returns only on a value of kind Array, Chan, Map,
    Slice or String or on a pointer to an array, and never with an
    error; on every other value it panics in [Len].  On a slice or
    array, a map and a string it is true exactly when there is no item,
    no entry and no byte; on a pointer to an array, nil or not, exactly
    when the array type has length 0. *)
Theorem doMatchIsEmpty_returns matcher value :
  (forall b err, doMatchIsEmpty matcher value = Return (b, err) ->
     err = None
     /\ (In (ValueKind value)
           [reflect.Array; reflect.Chan; reflect.Map; reflect.Slice; reflect.String]
         \/ exists elemType elem n t,
              underlyingValue value = VPtr elemType elem
              /\ underlyingType elemType = TArray n t))
  /\ (forall array elemType items,
        underlyingValue value = VList array elemType items ->
        exists b, doMatchIsEmpty matcher value = Return (b, None)
                  /\ (b = true <-> items = []))
  /\ (forall keyType entries,
        underlyingValue value = VMap keyType entries ->
        exists b, doMatchIsEmpty matcher value = Return (b, None)
                  /\ (b = true <-> entries = []))
  /\ (forall s,
        underlyingValue value = VBasic (string_ s) ->
        exists b, doMatchIsEmpty matcher value = Return (b, None)
                  /\ (b = true <-> s = ""))
  /\ (forall elemType elem n t,
        underlyingValue value = VPtr elemType elem ->
        underlyingType elemType = TArray n t ->
        exists b, doMatchIsEmpty matcher value = Return (b, None)
                  /\ (b = true <-> n = 0)).
Proof.
  unfold doMatchIsEmpty, Len. split; [|split; [|split; [|split]]].
  - intros b err. rewrite <- ValueKind_underlyingValue.
    destruct (underlyingValue value)
      as [|p|pointee elem|fs|array et items|kt entries|queued|k|m u];
      try discriminate; cbn [bind ValueKind In].
    + destruct p; try discriminate. cbn [bind PrimitiveKind].
      intros [= _ <-]. auto 10.
    + destruct (underlyingType pointee) as [| | | |n t| |] eqn:Hpointee;
        try discriminate.
      intros [= _ <-]. split; [reflexivity|]. right. now exists pointee, elem, n, t.
    + intros [= _ <-]. destruct array; auto 10.
    + intros [= _ <-]. auto 10.
    + intros [= _ <-]. auto 10.
  - intros array elemType items ->. eexists. split; [reflexivity|].
    destruct items; [easy | split; discriminate].
  - intros keyType entries ->. eexists. split; [reflexivity|].
    destruct entries; [easy | split; discriminate].
  - intros s ->. eexists. split; [reflexivity|].
    destruct s; [easy | split; discriminate].
  - intros elemType elem n t -> ->. eexists. split; [reflexivity|].
    destruct n; [easy | split; discriminate].
Qed.

(** ** The traversal *)

(** X9 - at a selector step that is not the last, a value that is neither
    a struct, nor a slice or array, nor a map (a primitive, a pointer
    that is still a pointer after one indirection, the zero Value) yields
    false with the error about nested selection, which carries the
    selector up to that step and the kind of the value; it never panics. *)
Theorem nested_selection_error expression depth rvalue fields :
  depth < List.length (Selector expression) ->
  ~ In (ValueKind rvalue)
      [reflect.Struct; reflect.Slice; reflect.Array; reflect.Map] ->
  evaluateMatchExpressionRecurse expression depth rvalue fields
  = Return (false,
            Some (ErrNestedSelection (firstn depth (Selector expression))
                    (ValueKind rvalue))).
Proof.
  intros Hdepth Hkind. apply Nat.leb_gt in Hdepth.
  induction rvalue; cbn [evaluateMatchExpressionRecurse ValueKind] in *;
    rewrite Hdepth; try reflexivity.
  - exfalso. apply Hkind. cbn. auto.
  - exfalso. apply Hkind. destruct array; cbn; auto.
  - exfalso. apply Hkind. cbn. auto.
  - now apply IHrvalue.
Qed.

Lemma nested_selection_error_witness :
  evaluateMatchExpressionRecurse
    {| Selector := ["Age"; "x"]; Operator := MatchEqual; Value := None |}
    1 (VBasic (int_ 30)) None
  = Return (false, Some (ErrNestedSelection ["Age"] reflect.Int)).
Proof.
  apply (nested_selection_error
           {| Selector := ["Age"; "x"]; Operator := MatchEqual; Value := None |}
           1 (VBasic (int_ 30)) None).
  - simpl. lia.
  - simpl. intros [H|[H|[H|[H|[]]]]]; discriminate H.
Defined.

Lemma lookupEntry_found {R : Type} (s : string) (absent : R) (found : GoValue -> R)
    (pre post : list (Primitive * GoValue)) (elem : GoValue) :
  ~ In (string_ s) (map fst pre) ->
  lookupEntry (string_ s) absent found (pre ++ (string_ s, elem) :: post)
  = found elem.
Proof.
  induction pre as [|[k e] pre IH]; intros Hpre; cbn [app lookupEntry].
  - now rewrite (proj2 (Primitive_eqb_string _ _) eq_refl).
  - destruct (Primitive_eqb k (string_ s)) eqn:Heq.
    + apply Primitive_eqb_string in Heq. subst k. exfalso. apply Hpre. now left.
    + apply IH. intros Hin. apply Hpre. now right.
Qed.

(** X10 - a key that holds a nil pointer.  On a map whose key type is
    the type string, selecting through a key whose value is the nil
    pointer gives the answers of the absent key, although MatchIn with
    that key on the map itself is true: the key is in the map. *)
Theorem nil_value_as_absent expression depth rvalue keyType pre post elem fields :
  depth < List.length (Selector expression) ->
  underlyingValue rvalue = VMap keyType (pre ++ (string_ (nth depth (Selector expression) ""), elem) :: post) ->
  keyType = TBasic reflect.String ->
  ~ In (string_ (nth depth (Selector expression) "")) (map fst pre) ->
  IsValid elem = true -> Indirect elem = VZero ->
  evaluateMatchExpressionRecurse expression depth rvalue fields
  = absentKey (Operator expression)
  /\ forall membership,
       getMatchExprValue membership
       = Box (string_ (nth depth (Selector expression) "")) ->
       doMatchIn membership rvalue = Return (true, None).
Proof.
  intros Hdepth Hmap -> Hpre Hvalid Hnil. split.
  - rewrite evaluateMatchExpressionRecurse_underlying by assumption.
    rewrite Hmap. cbn [evaluateMatchExpressionRecurse].
    apply Nat.leb_gt in Hdepth. rewrite Hdepth.
    unfold assignableTo. cbn [PrimitiveKind].
    rewrite bool_decide_eq_true_2 by reflexivity. cbn [orb negb].
    rewrite lookupEntry_found by assumption. now rewrite Hnil.
  - intros membership Hvalue. unfold doMatchIn. rewrite Hmap, Hvalue.
    unfold MapIndex, assignableTo. cbn [ValueOf PrimitiveKind].
    rewrite bool_decide_eq_true_2 by reflexivity. cbn [orb bind].
    rewrite lookupEntry_found by assumption. now rewrite Hvalid.
Qed.

Lemma nil_value_as_absent_witness :
  evaluateMatchExpressionRecurse
    {| Selector := ["meta"; "env"; "x"]; Operator := MatchNotEqual;
       Value := Some {| Raw := "prod"; Converted := Nil |} |}
    1 (VMap (TBasic reflect.String) [(string_ "env", VPtr (TBasic reflect.String) VZero)]) None
  = Return (true, None).
Proof.
  apply (proj1 (nil_value_as_absent
           {| Selector := ["meta"; "env"; "x"]; Operator := MatchNotEqual;
              Value := Some {| Raw := "prod"; Converted := Nil |} |}
           1 (VMap (TBasic reflect.String) [(string_ "env", VPtr (TBasic reflect.String) VZero)])
           (TBasic reflect.String) [] [] (VPtr (TBasic reflect.String) VZero) None
           ltac:(simpl; lia) eq_refl eq_refl ltac:(simpl; tauto) eq_refl eq_refl)).
Defined.

Lemma doMatchIsEmpty_returns_witness :
  exists b,
    doMatchIsEmpty
      {| Selector := ["tags"]; Operator := MatchIsEmpty; Value := None |}
      (VList false (TBasic reflect.String) []) = Return (b, None)
    /\ (b = true <-> @nil GoValue = []).
Proof.
  exact (proj1 (proj2 (doMatchIsEmpty_returns
                         {| Selector := ["tags"]; Operator := MatchIsEmpty; Value := None |}
                         (VList false (TBasic reflect.String) [])))
           false (TBasic reflect.String) [] eq_refl).
Defined.

(** *** Collections of collections *)

Lemma anyItem_app (recurse : GoValue -> result) (items rest : list GoValue) :
  anyItem recurse (items ++ rest)
  = match anyItem recurse items with
    | Return (false, None) => anyItem recurse rest
    | outcome => outcome
    end.
Proof.
  induction items as [|item items IH]; [reflexivity|].
  cbn [app anyItem]. destruct (recurse item) as [[b [err|]]|]; cbn [bind];
    try reflexivity.
  destruct b; [reflexivity | exact IH].
Qed.

Lemma anyItem_error (recurse : GoValue -> result) (items : list GoValue) b err :
  anyItem recurse items = Return (b, Some err) -> b = false.
Proof.
  induction items as [|item items IH]; cbn [anyItem]; [discriminate|].
  destruct (recurse item) as [[r [e|]]|]; cbn [bind];
    [now intros [= <- _] | | discriminate].
  destruct r; [discriminate | exact IH].
Qed.

(** X11 - slices of slices are evaluated as if flattened: at a selector
    step that is not the last, a collection whose items are themselves
    (pointers to) collections evaluates to what the collection of all
    their items, in order, evaluates to. *)
Theorem nested_lists_flattened expression depth fields
    array elemType (elems : list GoValue)
    array' elemType' (inners : list (list GoValue)) :
  depth < List.length (Selector expression) ->
  Forall2 (fun elem inner =>
             exists a t, underlyingValue (Indirect elem) = VList a t inner)
    elems inners ->
  evaluateMatchExpressionRecurse expression depth
    (VList array elemType elems) fields
  = evaluateMatchExpressionRecurse expression depth
      (VList array' elemType' (concat inners)) fields.
Proof.
  intros Hdepth Hnested.
  rewrite !evaluateMatchExpressionRecurse_list by assumption.
  induction Hnested as [|elem inner elems inners (a & t & Hinner) _ IH];
    [reflexivity|].
  cbn [concat anyItem]. rewrite anyItem_app, <- IH.
  rewrite evaluateMatchExpressionRecurse_underlying by assumption.
  rewrite Hinner, evaluateMatchExpressionRecurse_list by assumption.
  destruct (anyItem _ inner) as [[b [err|]]|] eqn:Hitems; cbn [bind];
    try reflexivity.
  now rewrite (anyItem_error _ _ _ _ Hitems).
Qed.

Lemma nested_lists_flattened_witness :
  evaluateMatchExpressionRecurse probeExpression 1
    (VList false (TSlice itemType)
       [VList false itemType [item (-1)]; VList false itemType [item 1]])
    itemSchema
  = evaluateMatchExpressionRecurse probeExpression 1
      (VList false itemType [item (-1); item 1]) itemSchema.
Proof.
  apply (nested_lists_flattened probeExpression 1 itemSchema
           false (TSlice itemType)
           [VList false itemType [item (-1)]; VList false itemType [item 1]]
           false itemType [[item (-1)]; [item 1]]).
  - simpl. lia.
  - repeat constructor; eexists; eexists; reflexivity.
Defined.

(** ** The connectives *)

(** X12 - what evaluate can fail with.  A panic of evaluate is the panic
    of one of the Match nodes under its connectives; an error of evaluate
    is the error of one of those nodes or the error about an invalid AST
    node. *)
Theorem evaluate_failures ast datum fields :
  (evaluate ast datum fields = Panic ->
   exists node, In node (matchNodes ast)
                /\ evaluateMatchExpression node datum fields = Panic)
  /\ (forall b err, evaluate ast datum fields = Return (b, Some err) ->
        err = ErrInvalidASTNode
        \/ exists node b', In node (matchNodes ast)
             /\ evaluateMatchExpression node datum fields = Return (b', Some err)).
Proof.
  induction ast as [op operand IH|left IHl op right IHr|node|].
  - destruct op; cbn [evaluate matchNodes].
    + destruct IH as [IHpanic IHerr].
      destruct (evaluate operand datum fields) as [[r [e|]]|]; cbn [bind].
      * split; [discriminate|]. intros b err [= _ <-]. now apply (IHerr r).
      * split; discriminate.
      * split; [intros _; now apply IHpanic | discriminate].
    + split; [discriminate | intros b err [= _ <-]; now left].
  - destruct IHl as [IHlpanic IHlerr], IHr as [IHrpanic IHrerr].
    assert (Hleft : forall node, In node (matchNodes left) ->
                      In node (matchNodes left ++ matchNodes right))
      by (intros; apply in_or_app; now left).
    assert (Hright : forall node, In node (matchNodes right) ->
                       In node (matchNodes left ++ matchNodes right))
      by (intros; apply in_or_app; now right).
    destruct op; cbn [evaluate matchNodes];
      try (split; [discriminate | intros b err [= _ <-]; now left]);
      (destruct (evaluate left datum fields) as [[r [e|]]|]; cbn [bind notNil orb];
       [ split; [discriminate|]; intros b err [= _ <-];
         destruct (IHlerr r e eq_refl) as [->|(node & b' & Hin & Hnode)];
           [now left | right; exists node, b'; auto]
       | destruct r; cbn [negb];
         try (split; discriminate);
         (split;
          [ intros Hpanic; destruct (IHrpanic Hpanic) as (node & Hin & Hnode);
            exists node; auto
          | intros b err Herr;
            destruct (IHrerr b err Herr) as [->|(node & b' & Hin & Hnode)];
              [now left | right; exists node, b'; auto] ])
       | split; [|discriminate]; intros _;
         destruct (IHlpanic eq_refl) as (node & Hin & Hnode); exists node; auto ]).
  - cbn [evaluate matchNodes]. split.
    + intros Hpanic. exists node. split; [now left | assumption].
    + intros b err Herr. right. exists node, b. split; [now left | assumption].
  - cbn [evaluate]. split; [discriminate | intros b err [= _ <-]; now left].
Qed.

Lemma evaluate_failures_witness :
  exists node,
    In node (matchNodes (BinaryExpr (Match probeExpression) BinaryOpOr unconfigured))
    /\ evaluateMatchExpression node
         (VStruct [exported "Items" (VList false itemType [])]) itemsSchema
       = Panic.
Proof.
  apply (proj1 (evaluate_failures
                  (BinaryExpr (Match probeExpression) BinaryOpOr unconfigured)
                  (VStruct [exported "Items" (VList false itemType [])])
                  itemsSchema)).
  vm_compute. reflexivity.
Defined.

(** X13 - double negation: Not(Not(a)) has the outcome of a, the same
    boolean with the same error or the same panic. *)
Theorem double_negation a datum fields :
  evaluate (UnaryExpr UnaryOpNot (UnaryExpr UnaryOpNot a)) datum fields
  = evaluate a datum fields.
Proof.
  cbn [evaluate]. destruct (evaluate a datum fields) as [[r err]|]; cbn [bind];
    [now rewrite negb_involutive | reflexivity].
Qed.

(** X14 - And and Or are associative: regrouping the operands changes
    neither the boolean, nor the error, nor a panic. *)
Theorem connectives_associative a b c datum fields :
  evaluate (BinaryExpr (BinaryExpr a BinaryOpAnd b) BinaryOpAnd c) datum fields
  = evaluate (BinaryExpr a BinaryOpAnd (BinaryExpr b BinaryOpAnd c)) datum fields
  /\ evaluate (BinaryExpr (BinaryExpr a BinaryOpOr b) BinaryOpOr c) datum fields
     = evaluate (BinaryExpr a BinaryOpOr (BinaryExpr b BinaryOpOr c)) datum fields.
Proof.
  cbn [evaluate].
  destruct (evaluate a datum fields) as [[ra [ea|]]|]; cbn [bind notNil orb];
    [split; reflexivity | | split; reflexivity].
  destruct ra; cbn [negb bind notNil orb]; split; try reflexivity;
    destruct (evaluate b datum fields) as [[rb [eb|]]|]; reflexivity.
Qed.

(** ** The datum by pointer *)




(** * Further properties of the schema deriver *)

(** ** Errors *)

Lemma structFieldsLoop_no_error internal fields :
  Forall (fun field =>
            forall cfg err,
              internal (derefType (reflect.Content field)) = Return (cfg, err) ->
              err = None) fields ->
  forall fieldConfigs configs err,
    structFieldsLoop internal fields fieldConfigs = Return (configs, err) ->
    err = None.
Proof.
  induction 1 as [|field rest Hfield _ IH]; intros fieldConfigs configs err;
    cbn [structFieldsLoop].
  - now intros [= _ <-].
  - destruct (structFieldNames field) as [fieldNames|]; [|apply IH].
    destruct (internal (derefType (reflect.Content field))) as [[cfg e]|] eqn:Hcfg;
      cbn [bind]; [|discriminate].
    rewrite (Hfield _ _ eq_refl). cbn [notNil].
    destruct cfg; [apply IH | discriminate].
Qed.

Lemma generateFieldConfigurationInternal_no_error_deref (rtype : GoType) :
  (forall cfg err,
     generateFieldConfigurationInternal rtype = Return (cfg, err) -> err = None)
  /\ (forall cfg err,
        generateFieldConfigurationInternal (derefType rtype) = Return (cfg, err) ->
        err = None).
Proof.
  revert rtype.
  apply (GoType_nested_ind
           (fun rtype =>
              (forall cfg err,
                 generateFieldConfigurationInternal rtype = Return (cfg, err) ->
                 err = None)
              /\ (forall cfg err,
                    generateFieldConfigurationInternal (derefType rtype)
                    = Return (cfg, err) -> err = None)));
    [ intros kind | intros elem [_ IH] | intros key elem [_ IHkey] [_ IHelem]
    | intros elem [_ IH] | intros n elem [_ IH] | intros fields IH
    | intros configs underlying [IHu IH] ].
  - assert (H : forall cfg err,
               generateFieldConfigurationInternal (TBasic kind) = Return (cfg, err) ->
               err = None).
    { intros cfg err. cbn [generateFieldConfigurationInternal Implements TypeKind].
      destruct (primitiveCoercionFns kind); now intros [= _ <-]. }
    split; exact H.
  - split; [|exact IH].
    intros cfg err. cbn [generateFieldConfigurationInternal TypeKind].
    destruct (Implements (TPtr elem)); [discriminate|].
    now intros [= _ <-].
  - assert (H : forall cfg err,
               generateFieldConfigurationInternal (TMap key elem) = Return (cfg, err) ->
               err = None).
    { intros cfg err.
      cbn [generateFieldConfigurationInternal Implements TypeKind primitiveCoercionFns].
      unfold mapFieldConfiguration.
      destruct (TypeKind (derefType key)); try (now intros [= _ <-]).
      destruct (generateFieldConfigurationInternal (derefType elem))
        as [[subfield e]|] eqn:Helem; cbn [bind]; [|discriminate].
      rewrite (IHelem _ _ eq_refl). cbn [notNil].
      destruct subfield; now intros [= _ <-]. }
    split; exact H.
  - assert (H : forall cfg err,
               generateFieldConfigurationInternal (TSlice elem) = Return (cfg, err) ->
               err = None).
    { intros cfg err.
      cbn [generateFieldConfigurationInternal Implements TypeKind primitiveCoercionFns].
      unfold sliceFieldConfiguration.
      destruct (primitiveCoercionFns (TypeKind (derefType elem)));
        [now intros [= _ <-]|].
      destruct (generateFieldConfigurationInternal (derefType elem))
        as [[subfield e]|] eqn:Helem; cbn [bind]; [|discriminate].
      rewrite (IH _ _ eq_refl). cbn [notNil].
      destruct subfield as [subfield|]; [|now intros [= _ <-]].
      destruct (0 <? len (SubFields subfield))%nat; now intros [= _ <-]. }
    split; exact H.
  - assert (H : forall cfg err,
               generateFieldConfigurationInternal (TArray n elem) = Return (cfg, err) ->
               err = None).
    { intros cfg err.
      cbn [generateFieldConfigurationInternal Implements TypeKind primitiveCoercionFns].
      unfold sliceFieldConfiguration.
      destruct (primitiveCoercionFns (TypeKind (derefType elem)));
        [now intros [= _ <-]|].
      destruct (generateFieldConfigurationInternal (derefType elem))
        as [[subfield e]|] eqn:Helem; cbn [bind]; [|discriminate].
      rewrite (IH _ _ eq_refl). cbn [notNil].
      destruct subfield as [subfield|]; [|now intros [= _ <-]].
      destruct (0 <? len (SubFields subfield))%nat; now intros [= _ <-]. }
    split; exact H.
  - assert (H : forall cfg err,
               generateFieldConfigurationInternal (TStruct fields) = Return (cfg, err) ->
               err = None).
    { intros cfg err.
      cbn [generateFieldConfigurationInternal Implements TypeKind primitiveCoercionFns].
      unfold structFieldConfigurations. cbn [underlyingType].
      destruct (structFieldsLoop generateFieldConfigurationInternal fields ∅)
        as [[subfields e]|] eqn:Hloop; cbn [bind]; [|discriminate].
      assert (He : e = None).
      { apply (structFieldsLoop_no_error generateFieldConfigurationInternal fields)
          with (fieldConfigs := ∅) (configs := subfields); [|exact Hloop].
        eapply List.Forall_impl; [|exact IH]. intros field [_ Hfield]. exact Hfield. }
      rewrite He. now intros [= _ <-]. }
    split; exact H.
  - assert (H : forall cfg err,
               generateFieldConfigurationInternal (TEvaluator configs underlying)
               = Return (cfg, err) -> err = None).
    { intros cfg err. cbn [generateFieldConfigurationInternal Implements TypeKind].
      destruct (TypeKind underlying); (discriminate || now intros [= _ <-]). }
    split; [exact H|].
    cbn [derefType]. destruct (TypeKind underlying); try exact H. exact IH.
Qed.

(** X16 - the errors of schema derivation.  Deriving the configuration of
    a type below the top level never returns an error; the only errors of
    GenerateFieldConfigurations are the two about the top-level type, and
    they come with the nil map. *)
Theorem derivation_errors :
  (forall rtype cfg err,
     generateFieldConfigurationInternal rtype = Return (cfg, err) -> err = None)
  /\ (forall topLevelType fields err,
        GenerateFieldConfigurations topLevelType = Return (fields, Some err) ->
        fields = None
        /\ (err = ErrMapKeysNotStrings \/ err = ErrInvalidTopLevelType)).
Proof.
  split.
  - intros rtype. apply generateFieldConfigurationInternal_no_error_deref.
  - intros [type|] fields err; [|discriminate].
    unfold GenerateFieldConfigurations, generateFieldConfigurationsAndType.
    destruct (Implements type); [discriminate|].
    destruct (underlyingType (derefType type)) as [k|e|key elem|e|n e|fs|c u] eqn:Hty;
      cbn [bind]; try (intros [= <- <-]; auto; fail).
    + destruct (bool_decide (TypeKind key = reflect.String)); cbn [negb bind];
        [|intros [= <- <-]; auto].
      destruct (generateFieldConfigurationInternal (derefType elem))
        as [[field e]|] eqn:Helem; cbn [bind]; [|discriminate].
      rewrite (proj1 (generateFieldConfigurationInternal_no_error_deref _) _ _ Helem).
      cbn [notNil]. destruct field; discriminate.
    + unfold generateStructFieldConfigurations, structFieldConfigurations.
      rewrite Hty.
      destruct (structFieldsLoop generateFieldConfigurationInternal fs ∅)
        as [[configs e]|] eqn:Hloop; cbn [bind]; [|discriminate].
      intros [= _ ->]. exfalso.
      assert (Hnone : Some err = None); [|discriminate Hnone].
      apply (structFieldsLoop_no_error generateFieldConfigurationInternal fs)
        with (fieldConfigs := ∅) (configs := configs); [|exact Hloop].
      apply Forall_forall. intros field _ cfg e.
      apply generateFieldConfigurationInternal_no_error_deref.
Qed.

Lemma derivation_errors_witness :
  @None (gmap string FieldConfiguration) = None
  /\ (ErrInvalidTopLevelType = ErrMapKeysNotStrings
      \/ ErrInvalidTopLevelType = ErrInvalidTopLevelType).
Proof.
  exact (proj2 derivation_errors (Some (TSlice (TBasic reflect.String)))
           None ErrInvalidTopLevelType eq_refl).
Defined.

(** ** The configuration of one type *)

(** X17 - the nil configuration.  generateFieldConfigurationInternal
    returns the nil configuration exactly for the types that are not
    self-describing, not of a primitive kind, and neither a map, a slice,
    an array nor a struct; it returns it without error. *)
Theorem nil_configuration (rtype : GoType) :
  (exists err, generateFieldConfigurationInternal rtype = Return (None, err))
  <-> Implements rtype = None
      /\ primitiveCoercionFns (TypeKind rtype) = None
      /\ compound rtype = false.
Proof.
  split.
  - intros [err Hnil].
    assert (err = None) as -> by exact (proj1 derivation_errors _ _ _ Hnil).
    revert Hnil. destruct rtype as [k|e|key elem|e|n e|fs|c u];
      cbn [generateFieldConfigurationInternal compound].
    + cbn [Implements TypeKind]. destruct (primitiveCoercionFns k); [discriminate|auto].
    + destruct (Implements (TPtr e)); [discriminate|]. auto.
    + cbn [Implements TypeKind primitiveCoercionFns]. unfold mapFieldConfiguration.
      destruct (TypeKind (derefType key)); try discriminate.
      destruct (generateFieldConfigurationInternal (derefType elem))
        as [[subfield [e|]]|]; cbn [bind notNil]; try discriminate.
      destruct subfield; discriminate.
    + cbn [Implements TypeKind primitiveCoercionFns]. unfold sliceFieldConfiguration.
      destruct (primitiveCoercionFns (TypeKind (derefType e))); [discriminate|].
      destruct (generateFieldConfigurationInternal (derefType e))
        as [[subfield [e'|]]|]; cbn [bind notNil]; try discriminate.
      destruct subfield as [subfield|]; [|discriminate].
      destruct (0 <? len (SubFields subfield))%nat; discriminate.
    + cbn [Implements TypeKind primitiveCoercionFns]. unfold sliceFieldConfiguration.
      destruct (primitiveCoercionFns (TypeKind (derefType e))); [discriminate|].
      destruct (generateFieldConfigurationInternal (derefType e))
        as [[subfield [e'|]]|]; cbn [bind notNil]; try discriminate.
      destruct subfield as [subfield|]; [|discriminate].
      destruct (0 <? len (SubFields subfield))%nat; discriminate.
    + cbn [Implements TypeKind primitiveCoercionFns].
      destruct (structFieldConfigurations generateFieldConfigurationInternal (TStruct fs))
        as [[subfields [e|]]|]; cbn [bind notNil]; discriminate.
    + cbn [Implements]. destruct (TypeKind (TEvaluator c u)); discriminate.
  - intros (Himpl & Hprim & Hcompound). exists None.
    destruct rtype; try discriminate Hcompound;
      cbn [generateFieldConfigurationInternal]; rewrite Himpl, Hprim; reflexivity.
Qed.

Lemma nil_configuration_witness :
  exists err,
    generateFieldConfigurationInternal (TBasic reflect.Func) = Return (None, err).
Proof.
  apply (proj2 (nil_configuration (TBasic reflect.Func))).
  repeat split.
Defined.

(** X18 - what a derived configuration offers.  Whatever the type, the
    configuration generateFieldConfigurationInternal returns has no
    physical name yet; it has a coercion function exactly when it supports
    an operator that takes a value (MatchEqual or MatchIn); it supports
    MatchEqual only for a primitive kind, and then not MatchIn; and it
    supports the emptiness test only for a map, a slice or an array. *)
Theorem derived_operations rtype cfg err :
  generateFieldConfigurationInternal rtype = Return (Some cfg, err) ->
  StructFieldName cfg = ""
  /\ (CoerceFn cfg <> None <->
      In MatchEqual (SupportedOperations cfg) \/ In MatchIn (SupportedOperations cfg))
  /\ (In MatchEqual (SupportedOperations cfg) ->
      primitiveCoercionFns (TypeKind rtype) <> None
      /\ ~ In MatchIn (SupportedOperations cfg))
  /\ (In MatchIsEmpty (SupportedOperations cfg) ->
      Implements rtype = None
      /\ In (TypeKind rtype) [reflect.Map; reflect.Slice; reflect.Array]).
Proof.
  assert (Hshape :
    generateFieldConfigurationInternal rtype = Return (Some cfg, err) ->
    StructFieldName cfg = ""
    /\ ((CoerceFn cfg = None /\ SupportedOperations cfg = []
         /\ (Implements rtype <> None \/ exists fs, rtype = TStruct fs))
        \/ (CoerceFn cfg <> None
            /\ SupportedOperations cfg = [MatchEqual; MatchNotEqual]
            /\ primitiveCoercionFns (TypeKind rtype) <> None)
        \/ (Implements rtype = None
            /\ In (TypeKind rtype) [reflect.Map; reflect.Slice; reflect.Array]
            /\ ((CoerceFn cfg <> None
                 /\ (SupportedOperations cfg
                     = [MatchIn; MatchNotIn; MatchIsEmpty; MatchIsNotEmpty]
                     \/ SupportedOperations cfg
                        = [MatchIsEmpty; MatchIsNotEmpty; MatchIn; MatchNotIn]))
                \/ (CoerceFn cfg = None
                    /\ SupportedOperations cfg = [MatchIsEmpty; MatchIsNotEmpty]))))).
  { destruct rtype as [k|e|key elem|e|n e|fs|c u];
      cbn [generateFieldConfigurationInternal].
    - cbn [Implements TypeKind].
      destruct (primitiveCoercionFns k) eqn:Hk; [|discriminate].
      intros [= <- _]; cbn.
      split; [reflexivity|]. right. left. repeat split; discriminate.
    - destruct (Implements (TPtr e)); discriminate.
    - cbn [Implements TypeKind primitiveCoercionFns]. unfold mapFieldConfiguration.
      destruct (TypeKind (derefType key));
        try (intros [= <- _]; cbn; split; [reflexivity|];
             right; right; split; [reflexivity|]; split; [now left|];
             right; now split).
      destruct (generateFieldConfigurationInternal (derefType elem))
        as [[subfield [e|]]|]; cbn [bind notNil]; try discriminate.
      destruct subfield; intros [= <- _]; cbn;
        (split; [reflexivity|]; right; right; split; [reflexivity|];
         split; [now left|]; left; split; [discriminate | now right]).
    - cbn [Implements TypeKind primitiveCoercionFns]. unfold sliceFieldConfiguration.
      destruct (primitiveCoercionFns (TypeKind (derefType e))).
      + intros [= <- _]; cbn. split; [reflexivity|]. right; right.
        split; [reflexivity|]. split; [auto|]. left. split; [discriminate | now left].
      + destruct (generateFieldConfigurationInternal (derefType e))
          as [[subfield [e'|]]|]; cbn [bind notNil]; try discriminate.
        destruct subfield as [subfield|];
          [destruct (0 <? len (SubFields subfield))%nat|];
          intros [= <- _]; cbn;
          (split; [reflexivity|]; right; right; split; [reflexivity|];
           split; [auto|]; right; now split).
    - cbn [Implements TypeKind primitiveCoercionFns]. unfold sliceFieldConfiguration.
      destruct (primitiveCoercionFns (TypeKind (derefType e))).
      + intros [= <- _]; cbn. split; [reflexivity|]. right; right.
        split; [reflexivity|]. split; [auto|]. left. split; [discriminate | now left].
      + destruct (generateFieldConfigurationInternal (derefType e))
          as [[subfield [e'|]]|]; cbn [bind notNil]; try discriminate.
        destruct subfield as [subfield|];
          [destruct (0 <? len (SubFields subfield))%nat|];
          intros [= <- _]; cbn;
          (split; [reflexivity|]; right; right; split; [reflexivity|];
           split; [auto|]; right; now split).
    - cbn [Implements TypeKind primitiveCoercionFns].
      destruct (structFieldConfigurations generateFieldConfigurationInternal (TStruct fs))
        as [[subfields [e|]]|]; cbn [bind notNil]; try discriminate.
      intros [= <- _]; cbn. split; [reflexivity|]. left. eauto.
    - cbn [Implements]. destruct (TypeKind (TEvaluator c u));
        try discriminate; intros [= <- _]; cbn;
        (split; [reflexivity|]; left; repeat split; left; discriminate). }
  intros Hcfg. destruct (Hshape Hcfg) as [Hname Hcases]. clear Hshape Hcfg.
  split; [exact Hname|].
  destruct Hcases as [(Hcoerce & Hops & _)
                     |[(Hcoerce & Hops & Hprim)
                      |(Himpl & Hkind & [(Hcoerce & [Hops|Hops])|(Hcoerce & Hops)])]];
    rewrite Hops; cbn [In]; rewrite ?Hcoerce;
    repeat split; intros; intuition (discriminate || congruence).
Qed.

Lemma derived_operations_witness :
  Implements (TSlice (TBasic reflect.String)) = None
  /\ In (TypeKind (TSlice (TBasic reflect.String)))
       [reflect.Map; reflect.Slice; reflect.Array].
Proof.
  refine (proj2 (proj2 (proj2 (derived_operations (TSlice (TBasic reflect.String))
            {| StructFieldName := ""; SubFields := None;
               CoerceFn := Some CoerceString;
               SupportedOperations :=
                 [MatchIn; MatchNotIn; MatchIsEmpty; MatchIsNotEmpty] |}
            None eq_refl))) _).
  simpl. auto.
Defined.

(** X19 - slices of slices have the configuration of the slice: for an
    element type that, pointers stripped, is not of a primitive kind, the
    configuration derived for a slice of (pointers to) slices or arrays
    of it is the one derived for a slice of it. *)
Theorem slice_of_slices_configuration (outer inner : GoType) :
  derefType outer = TSlice inner \/ (exists n, derefType outer = TArray n inner) ->
  primitiveCoercionFns (TypeKind (derefType inner)) = None ->
  generateFieldConfigurationInternal (TSlice outer)
  = generateFieldConfigurationInternal (TSlice inner).
Proof.
  intros Houter Hprim.
  assert (Hinner : generateFieldConfigurationInternal (derefType outer)
                   = generateSliceFieldConfiguration (derefType inner)).
  { destruct Houter as [->|[n ->]]; reflexivity. }
  assert (Hkind : primitiveCoercionFns (TypeKind (derefType outer)) = None).
  { destruct Houter as [->|[n ->]]; reflexivity. }
  cbn [generateFieldConfigurationInternal Implements TypeKind primitiveCoercionFns].
  unfold sliceFieldConfiguration at 1. rewrite Hkind, Hinner.
  unfold generateSliceFieldConfiguration, sliceFieldConfiguration. rewrite Hprim.
  destruct (generateFieldConfigurationInternal (derefType inner))
    as [[subfield [e|]]|]; cbn [bind notNil]; try reflexivity.
  destruct subfield as [subfield|]; [|reflexivity].
  destruct (0 <? len (SubFields subfield))%nat eqn:Hlen; cbn [bind notNil SubFields];
    rewrite ?Hlen; reflexivity.
Qed.

Lemma slice_of_slices_configuration_witness :
  generateFieldConfigurationInternal (TSlice (TPtr (TSlice itemType)))
  = generateFieldConfigurationInternal (TSlice itemType).
Proof.
  apply (slice_of_slices_configuration (TPtr (TSlice itemType)) itemType).
  - left. reflexivity.
  - reflexivity.
Defined.

(** ** The configurations of a struct *)

Section StructFieldsLoop.

Variable internal : GoType -> Go (option FieldConfiguration * option error).

Hypothesis internal_no_error :
  forall rtype cfg err, internal rtype = Return (cfg, err) -> err = None.

(** The fields the loop stops at with a panic: kept fields whose type
    derives to a panic or to the nil configuration. *)
Let faulty (field : reflect.StructField GoType) : Prop :=
  structFieldNames field <> None
  /\ (internal (derefType (reflect.Content field)) = Panic
      \/ internal (derefType (reflect.Content field)) = Return (None, None)).

Lemma structFieldsLoop_panic fields fieldConfigs :
  structFieldsLoop internal fields fieldConfigs = Panic
  <-> exists field, In field fields /\ faulty field.
Proof.
  revert fieldConfigs. induction fields as [|field rest IH]; intros fieldConfigs;
    cbn [structFieldsLoop].
  - split; [discriminate | intros (field & [] & _)].
  - destruct (structFieldNames field) as [fieldNames|] eqn:Hnames.
    + destruct (internal (derefType (reflect.Content field))) as [[cfg e]|] eqn:Hcfg;
        cbn [bind].
      * assert (e = None) as -> by exact (internal_no_error _ _ _ Hcfg).
        cbn [notNil]. destruct cfg as [cfg|].
        -- rewrite IH. split; intros (f & Hin & Hf).
           ++ exists f. split; [now right | assumption].
           ++ destruct Hin as [<-|Hin]; [|now exists f].
              destruct Hf as (_ & [Hpanic|Hnil]); congruence.
        -- split; [|reflexivity]. intros _. exists field.
           split; [now left|]. split; [congruence | now right].
      * split; [|reflexivity]. intros _. exists field.
        split; [now left|]. split; [congruence | now left].
    + rewrite IH. split; intros (f & Hin & Hf).
      * exists f. split; [now right | assumption].
      * destruct Hin as [<-|Hin]; [|now exists f].
        destruct Hf as (Hkept & _). now destruct Hkept.
Qed.

(** What the loop adds to the map it starts from. *)
Lemma structFieldsLoop_entries fields fieldConfigs configs err :
  structFieldsLoop internal fields fieldConfigs = Return (configs, err) ->
  exists result,
    configs = Some result
    /\ (forall name cfg,
          result !! name = Some cfg ->
          fieldConfigs !! name = Some cfg
          \/ exists field fieldNames base,
               In field fields /\ structFieldNames field = Some fieldNames
               /\ In name fieldNames
               /\ internal (derefType (reflect.Content field)) = Return (Some base, None)
               /\ cfg = setStructFieldName base (reflect.Name field))
    /\ (forall name,
          (is_Some (fieldConfigs !! name)
           \/ exists field fieldNames,
                In field fields /\ structFieldNames field = Some fieldNames
                /\ In name fieldNames) ->
          is_Some (result !! name)).
Proof.
  revert fieldConfigs. induction fields as [|field rest IH]; intros fieldConfigs;
    cbn [structFieldsLoop].
  - intros [= <- _]. exists fieldConfigs. split; [reflexivity|]. split.
    + intros name cfg Hcfg. now left.
    + intros name [Hsome|(field & names & [] & _)]. exact Hsome.
  - destruct (structFieldNames field) as [fieldNames|] eqn:Hnames.
    + destruct (internal (derefType (reflect.Content field))) as [[base e]|] eqn:Hbase;
        cbn [bind]; [|discriminate].
      assert (e = None) as -> by exact (internal_no_error _ _ _ Hbase).
      cbn [notNil]. destruct base as [base|]; [|discriminate].
      intros Hloop. destruct (IH _ Hloop) as (result & -> & Hfrom & Hto).
      exists result. split; [reflexivity|]. split.
      * intros name cfg Hcfg. destruct (Hfrom name cfg Hcfg) as [Hlinked|Hlater].
        -- rewrite linkNames_lookup in Hlinked.
           destruct (in_dec String.string_dec name fieldNames) as [Hin|Hin].
           ++ injection Hlinked as <-. right. exists field, fieldNames, base.
              repeat split; auto. now left.
           ++ now left.
        -- right. destruct Hlater as (f & names & b & Hin & Hrest).
           exists f, names, b. split; [now right | exact Hrest].
      * intros name Hname. apply Hto.
        destruct Hname as [Hsome|(f & names & [<-|Hin] & Hf & Hn)].
        -- left. rewrite linkNames_lookup.
           destruct (in_dec String.string_dec name fieldNames); [eauto | exact Hsome].
        -- left. rewrite linkNames_lookup.
           assert (names = fieldNames) as -> by congruence.
           destruct (in_dec String.string_dec name fieldNames); [eauto | contradiction].
        -- right. now exists f, names.
    + intros Hloop. destruct (IH _ Hloop) as (result & -> & Hfrom & Hto).
      exists result. split; [reflexivity|]. split.
      * intros name cfg Hcfg. destruct (Hfrom name cfg Hcfg) as [Hold|Hlater];
          [now left|].
        right. destruct Hlater as (f & names & b & Hin & Hrest).
        exists f, names, b. split; [now right | exact Hrest].
      * intros name Hname. apply Hto.
        destruct Hname as [Hsome|(f & names & [<-|Hin] & Hf & Hn)];
          [now left | congruence | right; now exists f, names].
Qed.

End StructFieldsLoop.

(** X20 - when deriving the configurations of a struct panics.  It
    panics exactly when the struct has a field that is kept (exported and
    not suppressed) and whose type, pointers stripped, derives to a panic
    or to the nil configuration; otherwise it returns a map that is not
    nil, without error. *)
Theorem struct_derivation_panics (fields : list (reflect.StructField GoType)) :
  let faulty := fun field =>
    structFieldNames field <> None
    /\ (generateFieldConfigurationInternal (derefType (reflect.Content field)) = Panic
        \/ generateFieldConfigurationInternal (derefType (reflect.Content field))
           = Return (None, None)) in
  (generateStructFieldConfigurations (TStruct fields) = Panic
   <-> exists field, In field fields /\ faulty field)
  /\ ((forall field, In field fields -> ~ faulty field) ->
      exists configs,
        generateStructFieldConfigurations (TStruct fields)
        = Return (Some configs, None)).
Proof.
  cbv zeta. unfold generateStructFieldConfigurations, structFieldConfigurations.
  cbn [underlyingType].
  pose proof (structFieldsLoop_panic generateFieldConfigurationInternal
                (proj1 derivation_errors) fields ∅) as Hpanic.
  split; [exact Hpanic|].
  intros Hsound.
  destruct (structFieldsLoop generateFieldConfigurationInternal fields ∅)
    as [[configs err]|] eqn:Hloop.
  - destruct (structFieldsLoop_entries generateFieldConfigurationInternal
                (proj1 derivation_errors) fields ∅ configs err Hloop)
      as (result & -> & _).
    assert (err = None) as ->.
    { apply (structFieldsLoop_no_error generateFieldConfigurationInternal fields)
        with (fieldConfigs := ∅) (configs := Some result); [|exact Hloop].
      apply Forall_forall. intros field _ cfg e. apply derivation_errors. }
    now exists result.
  - destruct (proj1 Hpanic eq_refl) as (field & Hin & Hfaulty).
    now destruct (Hsound field Hin).
Qed.

Lemma struct_derivation_panics_witness :
  exists configs,
    generateStructFieldConfigurations
      (TStruct [ {| reflect.Name := "C"; reflect.PkgPath := ""; reflect.Tag := "-";
                    reflect.Content := TBasic reflect.Chan |} ])
    = Return (Some configs, None).
Proof.
  apply (proj2 (struct_derivation_panics
           [ {| reflect.Name := "C"; reflect.PkgPath := ""; reflect.Tag := "-";
                reflect.Content := TBasic reflect.Chan |} ])).
  intros field [<-|[]] [Hkept _]. apply Hkept. reflexivity.
Defined.

(** X21 - the names of a derived struct configuration.  A name is bound
    in the map derived for a struct exactly when some kept field lists
    it, and the configuration bound under a name is the one derived for
    the type of such a field, with the physical name of that field as its
    canonical name. *)
Theorem struct_derivation_names (fields : list (reflect.StructField GoType))
    (configs : gmap string FieldConfiguration) err :
  generateStructFieldConfigurations (TStruct fields) = Return (Some configs, err) ->
  (forall name,
     is_Some (configs !! name)
     <-> exists field fieldNames,
           In field fields /\ structFieldNames field = Some fieldNames
           /\ In name fieldNames)
  /\ (forall name cfg,
        configs !! name = Some cfg ->
        exists field fieldNames base,
          In field fields /\ structFieldNames field = Some fieldNames
          /\ In name fieldNames
          /\ generateFieldConfigurationInternal (derefType (reflect.Content field))
             = Return (Some base, None)
          /\ cfg = setStructFieldName base (reflect.Name field)
          /\ StructFieldName cfg = reflect.Name field).
Proof.
  unfold generateStructFieldConfigurations, structFieldConfigurations.
  cbn [underlyingType]. intros Hloop.
  destruct (structFieldsLoop_entries generateFieldConfigurationInternal
              (proj1 derivation_errors) fields ∅ _ _ Hloop)
    as (result & [= <-] & Hfrom & Hto).
  assert (Hbound : forall name cfg,
            configs !! name = Some cfg ->
            exists field fieldNames base,
              In field fields /\ structFieldNames field = Some fieldNames
              /\ In name fieldNames
              /\ generateFieldConfigurationInternal (derefType (reflect.Content field))
                 = Return (Some base, None)
              /\ cfg = setStructFieldName base (reflect.Name field)
              /\ StructFieldName cfg = reflect.Name field).
  { intros name cfg Hcfg.
    destruct (Hfrom name cfg Hcfg) as [Hempty|(field & names & base & H1 & H2 & H3 & H4 & ->)].
    - rewrite lookup_empty in Hempty. discriminate Hempty.
    - exists field, names, base. repeat split; assumption. }
  split; [|exact Hbound].
  intros name. split.
  - intros [cfg Hcfg].
    destruct (Hbound name cfg Hcfg) as (field & names & _ & Hin & Hnames & Hname & _).
    now exists field, names.
  - intros Hlisted. apply Hto. now right.
Qed.

Lemma struct_derivation_names_witness :
  match itemsSchema with
  | Some configs =>
      forall name cfg,
        configs !! name = Some cfg ->
        exists field fieldNames base,
          In field [exported "Items" (TSlice itemType)]
          /\ structFieldNames field = Some fieldNames
          /\ In name fieldNames
          /\ generateFieldConfigurationInternal (derefType (reflect.Content field))
             = Return (Some base, None)
          /\ cfg = setStructFieldName base (reflect.Name field)
          /\ StructFieldName cfg = reflect.Name field
  | None => True
  end.
Proof.
  destruct itemsSchema as [configs|] eqn:Hschema; [|exact I].
  refine (proj2 (struct_derivation_names
                   [exported "Items" (TSlice itemType)] configs None _)).
  revert Hschema. vm_compute. now intros [= <-].
Defined.

(** ** Annotations *)

Lemma strings_Split_nonempty (s : string) (sep : ascii) : strings_Split s sep <> [].
Proof.
  destruct s as [|c rest]; cbn [strings_Split]; [discriminate|].
  destruct (Ascii.eqb c sep); [discriminate|].
  destruct (strings_Split rest sep); discriminate.
Qed.

Lemma strings_Join_Split (s : string) (sep : ascii) :
  strings_Join (strings_Split s sep) sep = s.
Proof.
  induction s as [|c rest IH]; [reflexivity|].
  cbn [strings_Split].
  pose proof (strings_Split_nonempty rest sep) as Hparts.
  destruct (Ascii.eqb c sep) eqn:Hc.
  - apply Ascii.eqb_eq in Hc. subst c.
    destruct (strings_Split rest sep) as [|part parts]; [contradiction|].
    rewrite <- IH. reflexivity.
  - destruct (strings_Split rest sep) as [|part parts]; [contradiction|].
    destruct parts as [|second parts]; rewrite <- IH; reflexivity.
Qed.

Lemma strings_Split_no_separator (s : string) (sep : ascii) :
  Forall (fun part => ~ In sep (list_ascii_of_string part)) (strings_Split s sep).
Proof.
  induction s as [|c rest IH]; cbn [strings_Split].
  - repeat constructor. intros [].
  - destruct (Ascii.eqb c sep) eqn:Hc.
    + constructor; [intros [] | exact IH].
    + destruct (strings_Split rest sep) as [|part parts];
        [repeat constructor; cbn; intros [->|[]]; now rewrite Ascii.eqb_refl in Hc|].
      inversion IH as [|? ? Hpart Hparts]; subst. constructor; [|assumption].
      cbn [list_ascii_of_string In]. intros [->|Hin]; [|contradiction].
      now rewrite Ascii.eqb_refl in Hc.
Qed.

(** X22 - the names of an annotated field.  For an exported field with a
    non-empty annotation, the field is left out exactly when the first
    comma-separated part of the annotation is "-" (whatever follows it);
    otherwise its names are the parts of the annotation: there is at
    least one, none contains a comma, joined with commas they give the
    annotation back, and the physical name is not added to them. *)
Theorem annotated_field_names (field : reflect.StructField GoType) :
  reflect.PkgPath field = "" -> reflect.Tag field <> "" ->
  (structFieldNames field = None
   <-> exists aliases, strings_Split (reflect.Tag field) "," = "-" :: aliases)
  /\ (forall fieldNames,
        structFieldNames field = Some fieldNames ->
        fieldNames = strings_Split (reflect.Tag field) ","
        /\ fieldNames <> []
        /\ strings_Join fieldNames "," = reflect.Tag field
        /\ Forall (fun name => ~ In ","%char (list_ascii_of_string name)) fieldNames).
Proof.
  intros Hpkg Htag. unfold structFieldNames. rewrite Hpkg.
  apply String.eqb_neq in Htag. rewrite Htag. cbn [String.eqb negb].
  pose proof (strings_Split_nonempty (reflect.Tag field) ",") as Hparts.
  pose proof (strings_Join_Split (reflect.Tag field) ",") as Hjoin.
  pose proof (strings_Split_no_separator (reflect.Tag field) ",") as Hsep.
  destruct (strings_Split (reflect.Tag field) ",") as [|first aliases];
    [contradiction|].
  destruct (String.eqb first "-") eqn:Hfirst.
  - apply String.eqb_eq in Hfirst. subst first. split.
    + split; [intros _; now exists aliases | reflexivity].
    + discriminate.
  - apply String.eqb_neq in Hfirst. split.
    + split; [discriminate | intros [rest [= Hdash _]]; contradiction].
    + intros fieldNames [= <-]. auto.
Qed.

Lemma annotated_field_names_witness :
  structFieldNames
    {| reflect.Name := "Hidden"; reflect.PkgPath := ""; reflect.Tag := "-,alias";
       reflect.Content := TBasic reflect.String |} = None.
Proof.
  apply (proj1 (annotated_field_names
           {| reflect.Name := "Hidden"; reflect.PkgPath := ""; reflect.Tag := "-,alias";
              reflect.Content := TBasic reflect.String |} eq_refl
           ltac:(discriminate))).
  exists ["alias"]. reflexivity.
Defined.

(** * Further properties of the traversal steps *)

Lemma lookupField_absent {R : Type} (name : string) (absent : R)
    (found : reflect.StructField GoValue -> R)
    (fields : list (reflect.StructField GoValue)) :
  ~ In name (map reflect.Name fields) ->
  lookupField name absent found fields = absent.
Proof.
  induction fields as [|field rest IH]; intros Habsent; [reflexivity|].
  cbn [lookupField]. destruct (String.eqb (reflect.Name field) name) eqn:Heq.
  - apply String.eqb_eq in Heq. exfalso. apply Habsent. now left.
  - apply IH. intros Hin. apply Habsent. now right.
Qed.

Lemma lookupField_found {R : Type} (name : string) (absent : R)
    (found : reflect.StructField GoValue -> R)
    (pre post : list (reflect.StructField GoValue))
    (field : reflect.StructField GoValue) :
  reflect.Name field = name -> ~ In name (map reflect.Name pre) ->
  lookupField name absent found (pre ++ field :: post) = found field.
Proof.
  intros Hname. induction pre as [|first pre IH]; intros Hpre; cbn [app lookupField].
  - now rewrite (proj2 (String.eqb_eq _ _) Hname).
  - destruct (String.eqb (reflect.Name first) name) eqn:Heq.
    + apply String.eqb_eq in Heq. exfalso. apply Hpre. now left.
    + apply IH. intros Hin. apply Hpre. now right.
Qed.

(** The unfolding of the step at a struct. *)
Lemma evaluateMatchExpressionRecurse_struct expression depth rvalue structFields
    fields fieldConfig :
  depth < List.length (Selector expression) ->
  underlyingValue rvalue = VStruct structFields ->
  index fields (nth depth (Selector expression) "") = Some fieldConfig ->
  evaluateMatchExpressionRecurse expression depth rvalue fields
  = lookupField
      (if String.eqb (StructFieldName fieldConfig) ""
       then nth depth (Selector expression) ""
       else StructFieldName fieldConfig)
      Panic
      (fun field =>
         let value := Indirect (reflect.Content field) in
         if negb (String.eqb (reflect.PkgPath field) "") then Panic
         else if negb (IsValid value) then Panic
         else
           match asExpressionEvaluator value with
           | Some EvaluateMatch =>
               EvaluateMatch (skipn (S depth) (Selector expression))
                 (Operator expression) (getMatchExprValue expression)
           | None =>
               evaluateMatchExpressionRecurse expression (S depth) value
                 (SubFields fieldConfig)
           end)
      structFields.
Proof.
  intros Hdepth Hstruct Hconfig.
  rewrite evaluateMatchExpressionRecurse_underlying by assumption.
  rewrite Hstruct. cbn [evaluateMatchExpressionRecurse].
  apply Nat.leb_gt in Hdepth. now rewrite Hdepth, Hconfig.
Qed.

(** X23 - when the step at a struct panics.  At a selector step that is
    not the last, on a struct, evaluation panics when the name has no
    configuration; when the struct has no field of the physical name;
    when that field is unexported; and when that field holds a nil
    pointer (unlike a map, where a nil pointer counts as an absent key). *)
Theorem struct_step_panics expression depth rvalue structFields fields :
  depth < List.length (Selector expression) ->
  underlyingValue rvalue = VStruct structFields ->
  let name := nth depth (Selector expression) "" in
  let outcome := evaluateMatchExpressionRecurse expression depth rvalue fields in
  (index fields name = None -> outcome = Panic)
  /\ (forall fieldConfig,
        index fields name = Some fieldConfig ->
        let physical :=
          if String.eqb (StructFieldName fieldConfig) "" then name
          else StructFieldName fieldConfig in
        (~ In physical (map reflect.Name structFields) -> outcome = Panic)
        /\ (forall pre field post,
              structFields = pre ++ field :: post ->
              reflect.Name field = physical ->
              ~ In physical (map reflect.Name pre) ->
              reflect.PkgPath field <> ""
              \/ Indirect (reflect.Content field) = VZero ->
              outcome = Panic)).
Proof.
  intros Hdepth Hstruct name outcome. split.
  - intros Hconfig. unfold outcome.
    rewrite evaluateMatchExpressionRecurse_underlying by assumption.
    rewrite Hstruct. cbn [evaluateMatchExpressionRecurse].
    apply Nat.leb_gt in Hdepth. rewrite Hdepth. fold name. now rewrite Hconfig.
  - intros fieldConfig Hconfig physical. unfold outcome.
    rewrite (evaluateMatchExpressionRecurse_struct _ _ _ structFields _ fieldConfig)
      by assumption.
    fold name. fold physical. split.
    + intros Habsent. now apply lookupField_absent.
    + intros pre field post -> Hname Hpre Hfault.
      rewrite lookupField_found by assumption. cbv zeta.
      destruct Hfault as [Hpkg|Hnil].
      * apply String.eqb_neq in Hpkg. now rewrite Hpkg.
      * rewrite Hnil. now destruct (negb (String.eqb (reflect.PkgPath field) "")).
Qed.

Lemma struct_step_panics_witness :
  evaluateMatchExpressionRecurse
    {| Selector := ["Owner"; "Name"]; Operator := MatchEqual;
       Value := Some {| Raw := "a"; Converted := Nil |} |}
    0 (VStruct [exported "Owner" (VPtr (TStruct []) VZero)])
    (Some {[ "Owner" := {| StructFieldName := "Owner"; SubFields := None;
                           CoerceFn := None; SupportedOperations := [] |} ]})
  = Panic.
Proof.
  refine (proj2 (proj2 (struct_step_panics
            {| Selector := ["Owner"; "Name"]; Operator := MatchEqual;
               Value := Some {| Raw := "a"; Converted := Nil |} |}
            0 (VStruct [exported "Owner" (VPtr (TStruct []) VZero)])
            [exported "Owner" (VPtr (TStruct []) VZero)]
            (Some {[ "Owner" := {| StructFieldName := "Owner"; SubFields := None;
                                   CoerceFn := None; SupportedOperations := [] |} ]})
            _ eq_refl)
            {| StructFieldName := "Owner"; SubFields := None;
               CoerceFn := None; SupportedOperations := [] |} _)
            [] (exported "Owner" (VPtr (TStruct []) VZero)) [] eq_refl eq_refl _ _).
  - simpl. lia.
  - vm_compute. reflexivity.
  - simpl. tauto.
  - right. reflexivity.
Defined.

(** X24 - the step at a struct.  The field read is the one named by the
    canonical name of the configuration bound to the selector's name (the
    selector's name itself when the canonical name is empty).  When that
    field is exported and holds a valid value, a self-describing value is
    handed the rest of the selector, the operator and the match value,
    and any other value is evaluated one step deeper under the
    sub-fields of the configuration. *)
Theorem struct_step expression depth rvalue pre field post fields fieldConfig :
  depth < List.length (Selector expression) ->
  underlyingValue rvalue = VStruct (pre ++ field :: post) ->
  index fields (nth depth (Selector expression) "") = Some fieldConfig ->
  reflect.Name field
  = (if String.eqb (StructFieldName fieldConfig) ""
     then nth depth (Selector expression) "" else StructFieldName fieldConfig) ->
  ~ In (reflect.Name field) (map reflect.Name pre) ->
  reflect.PkgPath field = "" ->
  IsValid (Indirect (reflect.Content field)) = true ->
  let value := Indirect (reflect.Content field) in
  let outcome := evaluateMatchExpressionRecurse expression depth rvalue fields in
  (forall EvaluateMatch,
     asExpressionEvaluator value = Some EvaluateMatch ->
     outcome = EvaluateMatch (skipn (S depth) (Selector expression))
                 (Operator expression) (getMatchExprValue expression))
  /\ (asExpressionEvaluator value = None ->
      outcome = evaluateMatchExpressionRecurse expression (S depth) value
                  (SubFields fieldConfig)).
Proof.
  intros Hdepth Hstruct Hconfig Hname Hpre Hpkg Hvalid value outcome.
  assert (Houtcome : outcome =
            match asExpressionEvaluator value with
            | Some EvaluateMatch =>
                EvaluateMatch (skipn (S depth) (Selector expression))
                  (Operator expression) (getMatchExprValue expression)
            | None =>
                evaluateMatchExpressionRecurse expression (S depth) value
                  (SubFields fieldConfig)
            end).
  { unfold outcome.
    rewrite (evaluateMatchExpressionRecurse_struct _ _ _ (pre ++ field :: post)
               _ fieldConfig) by assumption.
    rewrite <- Hname. rewrite lookupField_found by (reflexivity || assumption).
    cbv zeta. now rewrite Hpkg, Hvalid. }
  rewrite Houtcome. split.
  - now intros EvaluateMatch ->.
  - now intros ->.
Qed.

Lemma struct_step_witness :
  evaluateMatchExpressionRecurse
    {| Selector := ["labels"]; Operator := MatchIsEmpty; Value := None |}
    0 (VStruct [exported "Tags" (VList false (TBasic reflect.String) [])])
    (Some {[ "labels" := {| StructFieldName := "Tags"; SubFields := None;
                            CoerceFn := Some CoerceString;
                            SupportedOperations := [MatchIsEmpty] |} ]})
  = evaluateMatchExpressionRecurse
      {| Selector := ["labels"]; Operator := MatchIsEmpty; Value := None |}
      1 (VList false (TBasic reflect.String) []) None.
Proof.
  refine (proj2 (struct_step
            {| Selector := ["labels"]; Operator := MatchIsEmpty; Value := None |}
            0 (VStruct [exported "Tags" (VList false (TBasic reflect.String) [])])
            [] (exported "Tags" (VList false (TBasic reflect.String) [])) []
            (Some {[ "labels" := {| StructFieldName := "Tags"; SubFields := None;
                                    CoerceFn := Some CoerceString;
                                    SupportedOperations := [MatchIsEmpty] |} ]})
            {| StructFieldName := "Tags"; SubFields := None;
               CoerceFn := Some CoerceString;
               SupportedOperations := [MatchIsEmpty] |}
            _ eq_refl _ eq_refl _ eq_refl eq_refl) eq_refl).
  - simpl. lia.
  - vm_compute. reflexivity.
  - simpl. tauto.
Defined.

(** X25 - the step at a map.  At a selector step that is not the last, on
    a map whose key type is the type string and that holds the key with
    a valid value behind at most one pointer, a self-describing value is
    handed the rest of
    the selector; any other value is evaluated one step deeper under the
    sub-fields of the wildcard configuration, and evaluation panics when
    the configurations have no wildcard entry. *)
Theorem map_step expression depth rvalue keyType pre elem post fields :
  depth < List.length (Selector expression) ->
  underlyingValue rvalue
  = VMap keyType (pre ++ (string_ (nth depth (Selector expression) ""), elem) :: post) ->
  keyType = TBasic reflect.String ->
  ~ In (string_ (nth depth (Selector expression) "")) (map fst pre) ->
  IsValid (Indirect elem) = true ->
  let value := Indirect elem in
  let outcome := evaluateMatchExpressionRecurse expression depth rvalue fields in
  (forall EvaluateMatch,
     asExpressionEvaluator value = Some EvaluateMatch ->
     outcome = EvaluateMatch (skipn (S depth) (Selector expression))
                 (Operator expression) (getMatchExprValue expression))
  /\ (asExpressionEvaluator value = None ->
      (index fields FieldNameAny = None -> outcome = Panic)
      /\ (forall anyConfig,
            index fields FieldNameAny = Some anyConfig ->
            outcome = evaluateMatchExpressionRecurse expression (S depth) value
                        (SubFields anyConfig))).
Proof.
  intros Hdepth Hmap -> Hpre Hvalid value outcome.
  assert (Houtcome : outcome =
            match asExpressionEvaluator value with
            | Some EvaluateMatch =>
                EvaluateMatch (skipn (S depth) (Selector expression))
                  (Operator expression) (getMatchExprValue expression)
            | None =>
                match index fields FieldNameAny with
                | None => Panic
                | Some anyConfig =>
                    evaluateMatchExpressionRecurse expression (S depth) value
                      (SubFields anyConfig)
                end
            end).
  { unfold outcome.
    rewrite evaluateMatchExpressionRecurse_underlying by assumption.
    rewrite Hmap. cbn [evaluateMatchExpressionRecurse].
    apply Nat.leb_gt in Hdepth. rewrite Hdepth.
    unfold assignableTo. cbn [PrimitiveKind].
    rewrite bool_decide_eq_true_2 by reflexivity. cbn [orb negb].
    rewrite lookupEntry_found by assumption. now rewrite Hvalid. }
  rewrite Houtcome. split.
  - now intros EvaluateMatch ->.
  - intros ->. split; [now intros -> | now intros anyConfig ->].
Qed.

Lemma map_step_witness :
  evaluateMatchExpressionRecurse
    {| Selector := ["env"; "x"]; Operator := MatchEqual;
       Value := Some {| Raw := "prod"; Converted := Nil |} |}
    0 (VMap (TBasic reflect.String) [(string_ "env", VBasic (string_ "prod"))]) None
  = Panic.
Proof.
  refine (proj1 (proj2 (map_step
            {| Selector := ["env"; "x"]; Operator := MatchEqual;
               Value := Some {| Raw := "prod"; Converted := Nil |} |}
            0 (VMap (TBasic reflect.String) [(string_ "env", VBasic (string_ "prod"))])
            (TBasic reflect.String) [] (VBasic (string_ "prod")) [] None
            _ eq_refl eq_refl _ eq_refl) eq_refl) eq_refl).
  - simpl. lia.
  - simpl. tauto.
Defined.
